(** * Cricket cover-drive analyzer: metric computation, evaluation and job runner

    A shallow embedding of [backend/video_analysis/cricket_analyzer.py] and of
    the job runner of [backend/server.py].

    Numbers.  Python floats are idealised as real numbers: rounding and
    overflow are left out, the special value NaN is kept, because NumPy
    produces it where plain Python raises.  Exceptions are explicit: a
    fallible computation returns a [result]. *)

From Stdlib Require Import Reals Lra Lia ZArith.
From stdpp Require Import gmap strings list.

Local Open Scope string_scope.

(** ** Exceptions *)

Inductive exn : Type :=
  | IndexError
  | KeyError (key : string)
  | ValueError
  | ZeroDivisionError
  | Exception (msg : string).

Inductive result (A : Type) : Type :=
  | Ok (a : A)
  | Raise (e : exn).
Arguments Ok {A} a.
Arguments Raise {A} e.

(** Sequencing: [x ← c; k] runs [k] unless [c] raised. *)
#[global] Instance result_ret : MRet result := fun A a => Ok a.
#[global] Instance result_bind : MBind result := fun A B k c =>
  match c with
  | Ok a => k a
  | Raise e => Raise e
  end.

(** [str(e)] *)
Definition exn_str (e : exn) : string :=
  match e with
  | IndexError => "list index out of range"
  | KeyError key => "'" ++ key ++ "'"
  | ValueError => "operands could not be broadcast together"
  | ZeroDivisionError => "float division by zero"
  | Exception msg => msg
  end.

(** [try: body except: return d] *)
Definition try_except {A} (body : result A) (d : A) : A :=
  match body with
  | Ok a => a
  | Raise _ => d
  end.

(** [l[i]] on a Python list *)
Definition py_index {A} (l : list A) (i : nat) : result A :=
  match l !! i with
  | Some a => Ok a
  | None => Raise IndexError
  end.

(** ** Python and NumPy arithmetic *)

Module Num.
Local Open Scope R_scope.

(** A float that may be NaN. *)
Inductive pyfloat : Type :=
  | Fin (x : R)
  | NaN.

(** The value of a NumPy scalar division: IEEE 754 with the default error
    state, where a zero divisor gives a warning and a special value. *)
Inductive quotient : Type :=
  | QFin (x : R)
  | QPosInf
  | QNegInf
  | QNaN.

Definition np_true_divide (a b : R) : quotient :=
  if Req_dec_T b 0 then
    (if Req_dec_T a 0 then QNaN
     else if Rlt_dec 0 a then QPosInf else QNegInf)
  else QFin (a / b).

(** [np.clip(x, lo, hi)]: NaN stays NaN, everything else lands in [lo, hi]. *)
Definition np_clip (x : quotient) (lo hi : R) : pyfloat :=
  match x with
  | QFin v => Fin (if Rlt_dec v lo then lo else if Rlt_dec hi v then hi else v)
  | QPosInf => Fin hi
  | QNegInf => Fin lo
  | QNaN => NaN
  end.

(** [np.arccos]: NaN on NaN and outside [-1, 1]. *)
Definition np_arccos (x : pyfloat) : pyfloat :=
  match x with
  | Fin v => if Rle_dec (-1) v then (if Rle_dec v 1 then Fin (acos v) else NaN) else NaN
  | NaN => NaN
  end.

(** [math.degrees] on reals and on floats that may be NaN. *)
Definition degrees (x : R) : R := x * (180 / PI).

Definition math_degrees (x : pyfloat) : pyfloat :=
  match x with
  | Fin v => Fin (degrees v)
  | NaN => NaN
  end.

(** [math.atan2(y, x)]: the angle of the point (x, y), in (-pi, pi];
    [atan2(0, 0)] is 0 and raises nothing. *)
Definition math_atan2 (y x : R) : R :=
  if Rlt_dec 0 x then atan (y / x)
  else if Rlt_dec x 0 then
    (if Rle_dec 0 y then atan (y / x) + PI else atan (y / x) - PI)
  else if Rlt_dec 0 y then PI / 2
  else if Rlt_dec y 0 then - (PI / 2)
  else 0.

(** [int(x)]: truncation toward zero. *)
Definition py_int (x : R) : Z :=
  if Rle_dec 0 x then Int_part x else (- Int_part (- x))%Z.

(** [round(x)]: to the nearest integer, ties to the even one. *)
Definition py_round (x : R) : Z :=
  let f := Int_part x in
  let d := x - IZR f in
  if Rlt_dec d (1 / 2) then f
  else if Rlt_dec (1 / 2) d then (f + 1)%Z
  else if Z.even f then f else (f + 1)%Z.

(** [max(a, b)] and [min(a, b)]: the first argument wins ties. *)
Definition py_max (a b : R) : R := if Rlt_dec a b then b else a.
Definition py_min (a b : R) : R := if Rlt_dec b a then b else a.

(** [x > 0] on a float: false on NaN. *)
Definition gt0 (v : pyfloat) : bool :=
  match v with
  | Fin x => if Rlt_dec 0 x then true else false
  | NaN => false
  end.

Definition Rsum (l : list R) : R := foldr Rplus 0 l.

(** [np.mean] of a non-empty list *)
Definition np_mean (l : list R) : R := Rsum l / INR (length l).

(** *** NumPy one-dimensional arrays *)

(** [a - b] with broadcasting of a one-element array; other shape
    mismatches raise. *)
Definition np_subtract (a b : list R) : result (list R) :=
  if decide (length a = length b) then Ok (zip_with Rminus a b)
  else match a, b with
       | [x], _ => Ok ((fun y => x - y) <$> b)
       | _, [y] => Ok ((fun x => x - y) <$> a)
       | _, _ => Raise ValueError
       end.

Definition np_dot (a b : list R) : result R :=
  if decide (length a = length b) then Ok (Rsum (zip_with Rmult a b))
  else Raise ValueError.

Definition np_linalg_norm (a : list R) : R := sqrt (Rsum ((fun x => x * x) <$> a)).

End Num.

(** ** The analyzer: [CricketVideoAnalyzer] *)

Module Analyzer.
Import Num.
Local Open Scope R_scope.

(** *** Metric computation *)

(** Python float division: a zero divisor raises. *)
Definition py_truediv (a b : R) : result R :=
  if Req_dec_T b 0 then Raise ZeroDivisionError else Ok (a / b).

Definition calculate_angle (point1 point2 point3 : list R) : pyfloat :=
  try_except
    (let p1 := take 2 point1 in
     let p2 := take 2 point2 in
     let p3 := take 2 point3 in
     v1 ← np_subtract p1 p2;
     v2 ← np_subtract p3 p2;
     d ← np_dot v1 v2;
     let cos_angle := np_true_divide d (np_linalg_norm v1 * np_linalg_norm v2) in
     let cos_angle := np_clip cos_angle (-1) 1 in
     let angle := np_arccos cos_angle in
     Ok (math_degrees angle))
    (Fin 0).

Definition calculate_spine_lean (hip shoulder : list R) : R :=
  try_except
    (sx ← py_index shoulder 0;
     hx ← py_index hip 0;
     let dx := sx - hx in
     sy ← py_index shoulder 1;
     hy ← py_index hip 1;
     let dy := sy - hy in
     let angle_from_horizontal := degrees (math_atan2 (Rabs dy) (Rabs dx)) in
     let spine_lean := Rabs (90 - angle_from_horizontal) in
     Ok spine_lean)
    0.

Definition calculate_head_alignment (head knee : list R) (frame_width : Z) : R :=
  try_except
    (h ← py_index head 0;
     let head_x := h * IZR frame_width in
     k ← py_index knee 0;
     let knee_x := k * IZR frame_width in
     distance ← py_truediv (Rabs (head_x - knee_x)) (IZR frame_width);
     Ok distance)
    1.

(** [toe[i] - ankle[i] if toe else 0] *)
Definition toe_offset (ankle toe : list R) (i : nat) : result R :=
  match toe with
  | [] => Ok 0
  | _ => t ← py_index toe i; a ← py_index ankle i; Ok (t - a)
  end.

Definition calculate_foot_angle (ankle toe : list R) : R :=
  try_except
    (dx ← toe_offset ankle toe 0;
     dy ← toe_offset ankle toe 1;
     let angle := degrees (math_atan2 (Rabs dy) (Rabs dx)) in
     Ok angle)
    0.

(** *** Pose landmarks *)

Record Landmark : Type := { lm_x : R; lm_y : R; lm_z : R }.

(** What the pose estimator returns for a frame: [pose_landmarks] is [None]
    when no person was detected. *)
Record PoseResults : Type := { pose_landmarks : option (list Landmark) }.

Definition landmark_names : list (string * nat) :=
  [("nose", 0%nat); ("left_shoulder", 11%nat); ("right_shoulder", 12%nat);
   ("left_elbow", 13%nat); ("right_elbow", 14%nat);
   ("left_wrist", 15%nat); ("right_wrist", 16%nat);
   ("left_hip", 23%nat); ("right_hip", 24%nat);
   ("left_knee", 25%nat); ("right_knee", 26%nat);
   ("left_ankle", 27%nat); ("right_ankle", 28%nat)].

Definition extract_pose_landmarks (results : PoseResults)
  : result (gmap string (list R)) :=
  match pose_landmarks results with
  | None => Ok ∅
  | Some landmarks =>
      entries ← mapM (fun '(name, i) =>
                        l ← py_index landmarks i;
                        Ok (name, [lm_x l; lm_y l; lm_z l]))
                     landmark_names;
      Ok (list_to_map entries)
  end.

(** [d[key]] on a dict *)
Definition py_getitem {A} (d : gmap string A) (key : string) : result A :=
  match d !! key with
  | Some a => Ok a
  | None => Raise (KeyError key)
  end.

Definition fallback_metrics : gmap string pyfloat :=
  <["foot_angle" := Fin 0]> (<["head_alignment" := Fin 1]>
  (<["spine_lean" := Fin 0]> (<["elbow_angle" := Fin 0]> ∅))).

Definition analyze_biomechanics (pose_points : gmap string (list R))
    (frame_width : Z) : gmap string pyfloat :=
  try_except
    (front_shoulder ← py_getitem pose_points "left_shoulder";
     front_elbow ← py_getitem pose_points "left_elbow";
     front_wrist ← py_getitem pose_points "left_wrist";
     front_hip ← py_getitem pose_points "left_hip";
     front_knee ← py_getitem pose_points "left_knee";
     front_ankle ← py_getitem pose_points "left_ankle";
     let elbow_angle := calculate_angle front_shoulder front_elbow front_wrist in
     let metrics := <["elbow_angle" := elbow_angle]> (∅ : gmap string pyfloat) in
     let spine_lean := calculate_spine_lean front_hip front_shoulder in
     let metrics := <["spine_lean" := Fin spine_lean]> metrics in
     nose ← py_getitem pose_points "nose";
     let head_alignment := calculate_head_alignment nose front_knee frame_width in
     let metrics := <["head_alignment" := Fin head_alignment]> metrics in
     let foot_angle := calculate_foot_angle front_ankle front_knee in
     let metrics := <["foot_angle" := Fin foot_angle]> metrics in
     Ok metrics)
    fallback_metrics.

(** *** Evaluation *)

(** [np.random.random()]: the generator is a stream of draws and a cursor. *)
Record RandomState : Type := { draws : nat → R; cursor : nat }.

Definition np_random_random (g : RandomState) : R * RandomState :=
  (draws g (cursor g), {| draws := draws g; cursor := S (cursor g) |}).

(** Every draw lies in the half-open interval [0, 1). *)
Definition valid_rng (g : RandomState) : Prop := ∀ n, 0 <= draws g n < 1.

Record ThresholdBand : Type := { good : R * R; excellent : R * R }.

(** [self.thresholds], for the three banded metrics; those of
    [head_alignment] are two plain numbers that no code reads. *)
Definition thresholds_elbow_angle : ThresholdBand :=
  {| good := (90, 135); excellent := (105, 125) |}.
Definition thresholds_spine_lean : ThresholdBand :=
  {| good := (10, 30); excellent := (15, 25) |}.
Definition thresholds_foot_angle : ThresholdBand :=
  {| good := (15, 45); excellent := (20, 35) |}.

(** [lo <= value <= hi] *)
Definition within (range : R * R) (value : R) : bool :=
  if Rle_dec (fst range) value then
    (if Rle_dec value (snd range) then true else false)
  else false.

Definition _score_metric (value : R) (thresholds : ThresholdBand)
    (g : RandomState) : Z * RandomState :=
  if Req_dec_T value 0 then (1%Z, g)
  else
    let excellent_range := excellent thresholds in
    let good_range := good thresholds in
    if within excellent_range value then
      let '(r, g) := np_random_random g in ((9 + py_int (r * 2))%Z, g)
    else if within good_range value then
      let '(r, g) := np_random_random g in ((6 + py_int (r * 3))%Z, g)
    else
      let excellent_center := (fst excellent_range + snd excellent_range) / 2 in
      let distance := Rabs (value - excellent_center) in
      let score := Z.max 1 (6 - py_int (distance / 10)) in
      (score, g).

Definition _get_footwork_feedback (foot_angle : R) : list string :=
  let feedback : list string :=
    if Rlt_dec foot_angle 15 then
      ["Try to point your front foot more towards the target"]
    else if Rlt_dec 45 foot_angle then
      ["Front foot is pointing too wide, align more towards the pitch"]
    else ["Good foot positioning towards the target"] in
  (feedback ++ ["Focus on balanced weight transfer during the shot"])%list.

Definition _get_head_feedback (head_alignment : R) : list string :=
  if Rlt_dec (2 / 10) head_alignment then
    ["Keep your head more directly over your front knee";
     "This will improve balance and shot accuracy"]
  else ["Excellent head position over the front knee"].

Definition _get_swing_feedback (elbow_angle : R) : list string :=
  let feedback : list string :=
    if Rlt_dec elbow_angle 90 then
      ["Try to keep your front elbow higher during the shot"]
    else if Rlt_dec 135 elbow_angle then
      ["Front elbow is too high, lower it slightly for better control"]
    else ["Good elbow positioning for controlled swing"] in
  (feedback ++ ["Maintain smooth acceleration through the ball"])%list.

Definition _get_balance_feedback (spine_lean : R) : list string :=
  if Rlt_dec spine_lean 10 then
    ["Lean slightly forward for better balance and power"]
  else if Rlt_dec 30 spine_lean then
    ["Reduce forward lean to maintain better balance"]
  else ["Good spine angle for balanced shot execution"].

Definition _get_followthrough_feedback (score : Z) : list string :=
  if decide (8 ≤ score)%Z then
    ["Excellent overall technique"; "Continue practicing for consistency"]
  else if decide (6 ≤ score)%Z then
    ["Good technique with room for refinement"; "Focus on identified weak areas"]
  else ["Technique needs improvement"; "Practice basic fundamentals regularly"].

Record Evaluation : Type := {
  scores : gmap string Z;
  feedback : gmap string (list string);
  metrics_summary : gmap string R
}.

Definition incomplete_line : string :=
  "Analysis incomplete - please ensure clear video quality".

Definition _default_evaluation : Evaluation :=
  {| scores :=
       <["follow_through" := 5%Z]> (<["balance" := 5%Z]>
       (<["swing_control" := 5%Z]> (<["head_position" := 5%Z]>
       (<["footwork" := 5%Z]> ∅))));
     feedback :=
       <["follow_through" := [incomplete_line]]> (<["balance" := [incomplete_line]]>
       (<["swing_control" := [incomplete_line]]> (<["head_position" := [incomplete_line]]>
       (<["footwork" := [incomplete_line]]> ∅))));
     metrics_summary :=
       <["foot_angle" := 0]> (<["head_alignment" := 0]>
       (<["spine_lean" := 0]> (<["elbow_angle" := 0]> ∅))) |}.

(** [m.get(key, 0)] *)
Definition dict_get (m : gmap string pyfloat) (key : string) : pyfloat :=
  default (Fin 0) (m !! key).

(** The sample a frame contributes to the average of a metric, if any:
    [m.get(metric, 0)] when it is [> 0]. *)
Definition sample (metric : string) (m : gmap string pyfloat) : option R :=
  match dict_get m metric with
  | Fin x => if gt0 (Fin x) then Some x else None
  | NaN => None
  end.

(** [np.mean(values) if values else 0] over
    [values = [m.get(metric, 0) for m in all_metrics if m.get(metric, 0) > 0]] *)
Definition average (metric : string) (all_metrics : list (gmap string pyfloat)) : R :=
  let values := omap (sample metric) all_metrics in
  match values with
  | [] => 0
  | _ => np_mean values
  end.

Definition metric_names : list string :=
  ["elbow_angle"; "spine_lean"; "head_alignment"; "foot_angle"].

(** The loop [for metric in [...]: avg_metrics[metric] = ...] *)
Definition average_metrics (all_metrics : list (gmap string pyfloat)) : gmap string R :=
  foldl (fun avg_metrics metric => <[metric := average metric all_metrics]> avg_metrics)
        ∅ metric_names.

#[global] Instance R_inhabited : Inhabited R := populate 0.

Definition evaluate_technique (all_metrics : list (gmap string pyfloat))
    (g : RandomState) : Evaluation * RandomState :=
  match all_metrics with
  | [] => (_default_evaluation, g)
  | _ =>
      let avg_metrics := average_metrics all_metrics in
      let scores : gmap string Z := ∅ in
      let feedback : gmap string (list string) := ∅ in
      (* 1. footwork *)
      let '(foot_score, g) :=
        _score_metric (avg_metrics !!! "foot_angle") thresholds_foot_angle g in
      let scores := <["footwork" := foot_score]> scores in
      let feedback :=
        <["footwork" := _get_footwork_feedback (avg_metrics !!! "foot_angle")]> feedback in
      (* 2. head position *)
      let head_score := 10 - (avg_metrics !!! "head_alignment") * 10 in
      let head_score := py_max 1 (py_min 10 head_score) in
      let scores := <["head_position" := py_round head_score]> scores in
      let feedback :=
        <["head_position" := _get_head_feedback (avg_metrics !!! "head_alignment")]> feedback in
      (* 3. swing control *)
      let '(swing_score, g) :=
        _score_metric (avg_metrics !!! "elbow_angle") thresholds_elbow_angle g in
      let scores := <["swing_control" := swing_score]> scores in
      let feedback :=
        <["swing_control" := _get_swing_feedback (avg_metrics !!! "elbow_angle")]> feedback in
      (* 4. balance *)
      let '(balance_score, g) :=
        _score_metric (avg_metrics !!! "spine_lean") thresholds_spine_lean g in
      let scores := <["balance" := balance_score]> scores in
      let feedback :=
        <["balance" := _get_balance_feedback (avg_metrics !!! "spine_lean")]> feedback in
      (* 5. follow-through *)
      let follow_through_score :=
        py_round (np_mean (IZR <$> (map_to_list scores).*2)) in
      let scores := <["follow_through" := follow_through_score]> scores in
      let feedback :=
        <["follow_through" := _get_followthrough_feedback follow_through_score]> feedback in
      ({| scores := scores; feedback := feedback; metrics_summary := avg_metrics |}, g)
  end.

(** *** Analysis of a video file *)

(** An open capture: its properties and the frames [cap.read()] delivers
    before it reports the end.  A frame is given by what converting it and
    running the pose estimator on it yields: pose results, or an exception. *)
Record Video : Type := {
  is_opened : bool;
  frame_count : Z;
  fps : R;
  frame_width : Z;
  frame_height : Z;
  frames : list (result PoseResults)
}.

(** What the analysis reads and writes outside the process: the files that
    exist, the capture a path opens as, the random generator, the clock
    stamp of the output file, whether [open(output_file, 'w')] fails
    ([save_error]) and whether [json.dump] fails once the file has been
    created ([dump_error]). *)
Record World : Type := {
  files : gset string;
  videos : string → Video;
  random_state : RandomState;
  timestamp : string;
  save_error : option exn;
  dump_error : option exn
}.

Definition set_random_state (g : RandomState) (w : World) : World :=
  {| files := files w; videos := videos w; random_state := g;
     timestamp := timestamp w; save_error := save_error w;
     dump_error := dump_error w |}.

Definition set_files (fs : gset string) (w : World) : World :=
  {| files := fs; videos := videos w; random_state := random_state w;
     timestamp := timestamp w; save_error := save_error w;
     dump_error := dump_error w |}.

Record VideoInfo : Type := {
  frames_total : Z;
  frames_processed : Z;
  frames_with_pose : nat;
  info_fps : R;
  duration_seconds : R
}.

Record OutputFiles : Type := { evaluation_json : string; input_video : string }.

Record AnalysisResult : Type := {
  evaluation : Evaluation;
  video_info : VideoInfo;
  output_files : OutputFiles
}.

(** The [while True] loop over the frames of the capture. *)
Fixpoint frame_loop (remaining : list (result PoseResults)) (width : Z)
    (all_metrics : list (gmap string pyfloat)) (processed : Z)
  : result (list (gmap string pyfloat) * Z) :=
  match remaining with
  | [] => Ok (all_metrics, processed)
  | frame :: remaining =>
      results ← frame;
      all_metrics ←
        match pose_landmarks results with
        | Some _ =>
            pose_points ← extract_pose_landmarks results;
            if decide (size pose_points = 0%nat) then Ok all_metrics
            else Ok (all_metrics ++ [analyze_biomechanics pose_points width])%list
        | None => Ok all_metrics
        end;
      frame_loop remaining width all_metrics (processed + 1)
  end.

(** [except Exception as e: raise Exception(f"Video analysis failed: {str(e)}")] *)
Definition analysis_failed {A} (body : result A) : result A :=
  match body with
  | Ok a => Ok a
  | Raise e => Raise (Exception ("Video analysis failed: " ++ exn_str e))
  end.

Definition analyze_video_file (output_dir : string) (video_path : string)
    (w : World) : result AnalysisResult * World :=
  let '(outcome, w) :=
    if decide (video_path ∈ files w) then
      let cap := videos w video_path in
      if is_opened cap then
        match frame_loop (frames cap) (frame_width cap) [] 0 with
        | Ok (all_metrics, processed) =>
            let '(evaluation, g) := evaluate_technique all_metrics (random_state w) in
            let w := set_random_state g w in
            let output_file :=
              output_dir ++ "/evaluation_" ++ timestamp w ++ ".json" in
            match save_error w with
            | None =>
                let w := set_files ({[output_file]} ∪ files w) w in
                match dump_error w with
                | None =>
                    (Ok {| evaluation := evaluation;
                           video_info :=
                             {| frames_total := frame_count cap;
                                frames_processed := processed;
                                frames_with_pose := length all_metrics;
                                info_fps := fps cap;
                                duration_seconds :=
                                  if Rlt_dec 0 (fps cap)
                                  then IZR (frame_count cap) / fps cap else 0 |};
                           output_files :=
                             {| evaluation_json := output_file;
                                input_video := video_path |} |}, w)
                | Some e => (Raise e, w)
                end
            | Some e => (Raise e, w)
            end
        | Raise e => (Raise e, w)
        end
      else (Raise (Exception "Could not open video file"), w)
    else (Raise (Exception ("Video file not found: " ++ video_path)), w) in
  (analysis_failed outcome, w).

End Analyzer.

(** ** The job runner: [server.py] *)

Module Server.
Import Num Analyzer.

(** The directory the analyzer writes to ([ROOT_DIR / "output"]). *)
Definition OUTPUT_DIR : string := "backend/output".

(** The values the code gives the [status] key. *)
Inductive Status : Type := initiated | processing | completed | failed.

(** One entry of [analysis_results]: a dict whose keys are set by the
    endpoints and the runner; a key not set yet, or set to [None], is [None].
    The keys [scores], [feedback], [metrics_summary], [output_files] and
    [video_info] carry the prefix [job_]. *)
Record JobRecord : Type := {
  analysis_id : string;
  status : Status;
  video_source : option string;
  filename : option string;
  video_url : option string;
  created_at : nat;
  completed_at : option nat;
  error_message : option string;
  job_scores : option (gmap string Z);
  job_feedback : option (gmap string (list string));
  job_metrics_summary : option (gmap string R);
  job_output_files : option OutputFiles;
  job_video_info : option VideoInfo
}.

(** [record["status"] = "processing"] *)
Definition set_status (st : Status) (r : JobRecord) : JobRecord :=
  {| analysis_id := analysis_id r; status := st;
     video_source := video_source r; filename := filename r;
     video_url := video_url r; created_at := created_at r;
     completed_at := completed_at r; error_message := error_message r;
     job_scores := job_scores r; job_feedback := job_feedback r;
     job_metrics_summary := job_metrics_summary r;
     job_output_files := job_output_files r;
     job_video_info := job_video_info r |}.

(** [record.update({"status": "completed", "scores": ..., ...})]: one call
    that sets the status, the three parts of the evaluation, the completion
    time, the output files and the video information. *)
Definition update_completed (now : nat) (res : AnalysisResult)
    (r : JobRecord) : JobRecord :=
  {| analysis_id := analysis_id r; status := completed;
     video_source := video_source r; filename := filename r;
     video_url := video_url r; created_at := created_at r;
     completed_at := Some now; error_message := error_message r;
     job_scores := Some (scores (evaluation res));
     job_feedback := Some (feedback (evaluation res));
     job_metrics_summary := Some (metrics_summary (evaluation res));
     job_output_files := Some (output_files res);
     job_video_info := Some (video_info res) |}.

(** [record.update({"status": "failed", "error_message": str(e),
    "completed_at": now})] *)
Definition update_failed (now : nat) (message : string)
    (r : JobRecord) : JobRecord :=
  {| analysis_id := analysis_id r; status := failed;
     video_source := video_source r; filename := filename r;
     video_url := video_url r; created_at := created_at r;
     completed_at := Some now; error_message := Some message;
     job_scores := job_scores r; job_feedback := job_feedback r;
     job_metrics_summary := job_metrics_summary r;
     job_output_files := job_output_files r;
     job_video_info := job_video_info r |}.

(** A document of the collection [db.cricket_analyses]. *)
Record Document : Type := {
  doc_analysis_id : string;
  doc_video_source : string;
  doc_result : JobRecord;
  doc_created_at : nat
}.

(** The state of the server process and of what it touches: the global
    dict [analysis_results], the world the analyzer works in, the database
    collection, and the time [datetime.utcnow()] returns. *)
Record ServerState : Type := {
  analysis_results : gmap string JobRecord;
  world : World;
  cricket_analyses : list Document;
  utcnow : nat
}.

Definition set_analysis_results (m : gmap string JobRecord)
    (st : ServerState) : ServerState :=
  {| analysis_results := m; world := world st;
     cricket_analyses := cricket_analyses st; utcnow := utcnow st |}.

Definition set_world (w : World) (st : ServerState) : ServerState :=
  {| analysis_results := analysis_results st; world := w;
     cricket_analyses := cricket_analyses st; utcnow := utcnow st |}.

Definition set_cricket_analyses (docs : list Document)
    (st : ServerState) : ServerState :=
  {| analysis_results := analysis_results st; world := world st;
     cricket_analyses := docs; utcnow := utcnow st |}.

Definition set_utcnow (now : nat) (st : ServerState) : ServerState :=
  {| analysis_results := analysis_results st; world := world st;
     cricket_analyses := cricket_analyses st; utcnow := now |}.

(** What the collaborators of the runner do in one run: whether the
    database insert raises, and whether [os.remove] raises. *)
Record Faults : Type := {
  insert_error : option exn;
  remove_error : option exn
}.

(** *** The blocks of [process_video_analysis]

    The coroutine runs on the event loop and gives control back only at its
    two [await]s: each block below runs without interruption. *)

(** [analysis_results[analysis_id]["status"] = "processing"] *)
Definition begin_processing (analysis_id : string)
    (st : ServerState) : result ServerState :=
  r ← py_getitem (analysis_results st) analysis_id;
  Ok (set_analysis_results
        (<[analysis_id := set_status processing r]> (analysis_results st)) st).

(** [analysis_results[analysis_id].update({...})] with the results *)
Definition store_result (analysis_id : string) (res : AnalysisResult)
    (st : ServerState) : result ServerState :=
  r ← py_getitem (analysis_results st) analysis_id;
  Ok (set_analysis_results
        (<[analysis_id := update_completed (utcnow st) res r]> (analysis_results st))
        st).

(** [await db.cricket_analyses.insert_one({...})] *)
Definition insert_analysis (error : option exn) (analysis_id : string)
    (is_uploaded : bool) (st : ServerState) : result ServerState :=
  r ← py_getitem (analysis_results st) analysis_id;
  match error with
  | Some e => Raise e
  | None =>
      Ok (set_cricket_analyses
            (cricket_analyses st ++
             [{| doc_analysis_id := analysis_id;
                 doc_video_source := if is_uploaded then "uploaded" else "url";
                 doc_result := r;
                 doc_created_at := created_at r |}])%list
            st)
  end.

(** The [except Exception as e] handler: mark the job failed, then remove
    an uploaded file, ignoring a failure of the removal. *)
Definition handle_failure (faults : Faults) (analysis_id video_path : string)
    (is_uploaded : bool) (e : exn) (st : ServerState)
  : result unit * ServerState :=
  match py_getitem (analysis_results st) analysis_id with
  | Raise e' => (Raise e', st)
  | Ok r =>
      let st :=
        set_analysis_results
          (<[analysis_id := update_failed (utcnow st) (exn_str e) r]>
             (analysis_results st)) st in
      if is_uploaded && bool_decide (video_path ∈ files (world st)) then
        match remove_error faults with
        | None =>
            (Ok (), set_world (set_files (files (world st) ∖ {[video_path]})
                                 (world st)) st)
        | Some _ => (Ok (), st)
        end
      else (Ok (), st)
  end.

Definition process_video_analysis (faults : Faults)
    (analysis_id video_path : string) (is_uploaded : bool)
    (st : ServerState) : result unit * ServerState :=
  let on_error := handle_failure faults analysis_id video_path is_uploaded in
  match begin_processing analysis_id st with
  | Raise e => on_error e st
  | Ok st =>
      let '(outcome, w) := analyze_video_file OUTPUT_DIR video_path (world st) in
      let st := set_world w st in
      match outcome with
      | Raise e => on_error e st
      | Ok res =>
          match store_result analysis_id res st with
          | Raise e => on_error e st
          | Ok st =>
              match insert_analysis (insert_error faults) analysis_id is_uploaded st with
              | Raise e => on_error e st
              | Ok st => (Ok (), st)
              end
          end
      end
  end.

(** *** Endpoints *)

(** [GET /analysis/{analysis_id}]: the record, or [None] for HTTP 404. *)
Definition get_analysis_result (analysis_id : string)
    (st : ServerState) : option JobRecord :=
  analysis_results st !! analysis_id.

(** [GET /analysis] *)
Definition get_all_analyses (st : ServerState) : list JobRecord :=
  (map_to_list (analysis_results st)).*2.

(** *** The server as a transition system

    A background task is the runner of one job, stopped at one of its
    [await]s or not started yet. *)
Inductive Stage : Type := Scheduled | Analysing | Persisting | Finished.

Record Task : Type := {
  task_analysis_id : string;
  task_video_path : string;
  task_is_uploaded : bool;
  stage : Stage
}.

Definition at_stage (sg : Stage) (t : Task) : Task :=
  {| task_analysis_id := task_analysis_id t;
     task_video_path := task_video_path t;
     task_is_uploaded := task_is_uploaded t; stage := sg |}.

Record System : Type := { server : ServerState; tasks : list Task }.

(** What reaches a task when it resumes: the outcome of the analysis thread
    and the world it leaves, and the faults of the collaborators. *)
Record Delivery : Type := {
  analysis_outcome : result AnalysisResult;
  analysis_world : World;
  faults : Faults
}.

(** One block of the runner, from where the task stands to its next
    [await] or to its end. *)
Definition resume (d : Delivery) (t : Task) (st : ServerState)
  : Stage * ServerState :=
  let on_error e st :=
    (Finished,
     (handle_failure (faults d) (task_analysis_id t) (task_video_path t)
        (task_is_uploaded t) e st).2) in
  match stage t with
  | Scheduled =>
      match begin_processing (task_analysis_id t) st with
      | Ok st => (Analysing, st)
      | Raise e => on_error e st
      end
  | Analysing =>
      let st := set_world (analysis_world d) st in
      match analysis_outcome d with
      | Ok res =>
          match store_result (task_analysis_id t) res st with
          | Ok st => (Persisting, st)
          | Raise e => on_error e st
          end
      | Raise e => on_error e st
      end
  | Persisting =>
      match insert_analysis (insert_error (faults d)) (task_analysis_id t)
              (task_is_uploaded t) st with
      | Ok st => (Finished, st)
      | Raise e => on_error e st
      end
  | Finished => (Finished, st)
  end.

Definition run_task (i : nat) (d : Delivery) (s : System) : System :=
  match tasks s !! i with
  | Some t =>
      let '(sg, st) := resume d t (server s) in
      {| server := st; tasks := <[i := at_stage sg t]> (tasks s) |}
  | None => s
  end.

(** The blocks of one task run one after the other, [n] of them. *)
Fixpoint run_blocks (n : nat) (d : Delivery) (t : Task)
    (st : ServerState) : ServerState :=
  match n with
  | O => st
  | S n => let '(sg, st) := resume d t st in run_blocks n d (at_stage sg t) st
  end.

(** [POST /upload-video], once the file is saved under [video_path]: the
    record is created and the runner scheduled. *)
Definition upload_cricket_video (analysis_id file_name video_path : string)
    (s : System) : System :=
  let st := server s in
  let st := set_world (set_files ({[video_path]} ∪ files (world st)) (world st)) st in
  let r :=
    {| analysis_id := analysis_id; status := initiated;
       video_source := Some "uploaded"; filename := Some file_name;
       video_url := None; created_at := utcnow st;
       completed_at := None; error_message := None;
       job_scores := None; job_feedback := None; job_metrics_summary := None;
       job_output_files := None; job_video_info := None |} in
  {| server := set_analysis_results (<[analysis_id := r]> (analysis_results st)) st;
     tasks := (tasks s ++
               [{| task_analysis_id := analysis_id; task_video_path := video_path;
                   task_is_uploaded := true; stage := Scheduled |}])%list |}.

(** [POST /analyze-video] with a non-empty URL *)
Definition start_video_analysis (analysis_id url : string)
    (s : System) : System :=
  let st := server s in
  let r :=
    {| analysis_id := analysis_id; status := initiated;
       video_source := None; filename := None;
       video_url := Some url; created_at := utcnow st;
       completed_at := None; error_message := None;
       job_scores := None; job_feedback := None; job_metrics_summary := None;
       job_output_files := None; job_video_info := None |} in
  {| server := set_analysis_results (<[analysis_id := r]> (analysis_results st)) st;
     tasks := (tasks s ++
               [{| task_analysis_id := analysis_id; task_video_path := url;
                   task_is_uploaded := false; stage := Scheduled |}])%list |}.

(** The steps of the event loop: a request creates a job, a task runs one
    block, time passes.  Reading a record changes nothing and can happen
    between any two steps. *)
Inductive step : System → System → Prop :=
  | step_upload analysis_id file_name video_path s :
      step s (upload_cricket_video analysis_id file_name video_path s)
  | step_start analysis_id url s :
      url ≠ "" →
      step s (start_video_analysis analysis_id url s)
  | step_task i d s :
      step s (run_task i d s)
  | step_time now s :
      (utcnow (server s) ≤ now)%nat →
      step s {| server := set_utcnow now (server s); tasks := tasks s |}.

(** The server at start-up: no job, no task. *)
Definition start_up (w : World) : System :=
  {| server := {| analysis_results := ∅; world := w;
                  cricket_analyses := []; utcnow := 0 |};
     tasks := [] |}.

Definition reachable (s : System) : Prop := ∃ w, rtc step (start_up w) s.

End Server.

(** ** The upload request: [POST /upload-video] *)

Module Endpoints.
Import Analyzer Server.

(** What an endpoint gives back: a response, or an [HTTPException]. *)
Inductive http (A : Type) : Type :=
  | Respond (a : A)
  | HTTPException (status_code : Z) (detail : string).
Arguments Respond {A} a.
Arguments HTTPException {A} status_code detail.






(** [POST /analyze-video]: a missing or empty URL is refused. *)
Definition analyze_video_request (analysis_id : string) (video_url : option string)
    (s : System) : http (string * string) * System :=
  match video_url with
  | None | Some "" => (HTTPException 400 "video_url is required", s)
  | Some url => (Respond (analysis_id, "initiated"), start_video_analysis analysis_id url s)
  end.

End Endpoints.

(** ** The aggregate, in the words of the specification *)

Module Spec.
Import Num Analyzer.
Local Open Scope R_scope.

(** [positive_samples field records vs]: [vs] collects, in order, the
    values of [field] that are strictly greater than zero across all
    records; a record whose value is not strictly positive contributes
    nothing. *)
Inductive positive_samples (field : string)
  : list (gmap string pyfloat) → list R → Prop :=
  | positive_samples_nil : positive_samples field [] []
  | positive_samples_keep m records x vs :
      dict_get m field = Fin x → 0 < x →
      positive_samples field records vs →
      positive_samples field (m :: records) (x :: vs)
  | positive_samples_skip m records vs :
      (∀ x, dict_get m field = Fin x → ¬ 0 < x) →
      positive_samples field records vs →
      positive_samples field (m :: records) vs.

(** [a] is the mean of [vs], or 0 when [vs] is empty. *)
Definition mean_or_zero (vs : list R) (a : R) : Prop :=
  match vs with
  | [] => a = 0
  | _ => a * INR (length vs) = Rsum vs
  end.

(** A frame in which the estimator runs and detects no pose landmarks. *)
Definition no_pose (frame : result PoseResults) : Prop :=
  ∃ results, frame = Ok results ∧ pose_landmarks results = None.

(** A record shows a whole result: its scores, feedback and metrics summary
    are those of one evaluation. *)
Definition result_attached (r : Server.JobRecord) : Prop :=
  ∃ ev, Server.job_scores r = Some (scores ev)
        ∧ Server.job_feedback r = Some (feedback ev)
        ∧ Server.job_metrics_summary r = Some (metrics_summary ev).

(** Every task of the event loop finds its job in the store. *)
Definition tasks_have_records (s : Server.System) : Prop :=
  ∀ t, t ∈ Server.tasks s →
       is_Some (Server.analysis_results (Server.server s) !! Server.task_analysis_id t).

(** No record of the store is completed without its result. *)
Definition consistent (st : Server.ServerState) : Prop :=
  ∀ id r, Server.analysis_results st !! id = Some r →
          Server.status r = Server.completed →
          result_attached r ∧ is_Some (Server.completed_at r).

End Spec.

(** ** Sample inputs *)

Module Samples.
Import Num Analyzer.
Local Open Scope R_scope.

(** A generator whose every draw is [r]. *)
Definition constant_rng (r : R) : RandomState :=
  {| draws := fun _ => r; cursor := 0 |}.

(** A frame whose head alignment is [a] and whose angles are all zero. *)
Definition head_only_frame (a : R) : gmap string pyfloat :=
  <["head_alignment" := Fin a]> fallback_metrics.

(** A readable video of two frames in which no pose is detected. *)
Definition empty_scene : Video :=
  {| is_opened := true; frame_count := 2; fps := 10;
     frame_width := 640; frame_height := 480;
     frames := [Ok {| pose_landmarks := None |}; Ok {| pose_landmarks := None |}] |}.

(** A world with the given files, where every path opens as [v] and
    creating and writing the evaluation file succeed. *)
Definition world_with (fs : gset string) (v : Video) : World :=
  {| files := fs; videos := fun _ => v;
     random_state := constant_rng (1 / 2);
     timestamp := "20240101_120000"; save_error := None; dump_error := None |}.

(** The result of analysing a video without poses. *)
Definition default_result : AnalysisResult :=
  {| evaluation := _default_evaluation;
     video_info :=
       {| frames_total := 2; frames_processed := 2; frames_with_pose := 0;
          info_fps := 10; duration_seconds := 2 / 10 |};
     output_files :=
       {| evaluation_json := "backend/output/evaluation_20240101_120000.json";
          input_video := "backend/output/uploaded_job-1.mp4" |} |}.

Definition no_faults : Server.Faults :=
  {| Server.insert_error := None; Server.remove_error := None |}.

(** The server right after the upload of ["clip.mp4"] as job ["job-1"]. *)
Definition after_upload (v : Video) : Server.System :=
  Server.upload_cricket_video "job-1" "clip.mp4" "backend/output/uploaded_job-1.mp4"
    (Server.start_up (world_with ∅ v)).

(** The same server when no file was saved: the path does not exist. *)
Definition after_start (v : Video) : Server.System :=
  Server.start_video_analysis "job-2" "http://example.org/clip"
    (Server.start_up (world_with ∅ v)).

(** The analysis thread hands over [default_result]. *)
Definition default_delivery (w : World) : Server.Delivery :=
  {| Server.analysis_outcome := Ok default_result;
     Server.analysis_world := w;
     Server.faults := no_faults |}.

(** The uploaded job after its runner has started and the analysis has
    come back. *)
Definition after_analysis : Server.System :=
  let d := default_delivery (world_with ∅ empty_scene) in
  Server.run_task 0 d (Server.run_task 0 d (after_upload empty_scene)).

End Samples.

(** * Properties *)

(** ** Arithmetic helpers *)

Section NumFacts.
Import Num.
Local Open Scope R_scope.

Lemma Int_part_bounds (x : R) : IZR (Int_part x) <= x < IZR (Int_part x) + 1.
Proof. destruct (base_Int_part x) as [H1 H2]. lra. Qed.

Lemma Int_part_unique (x : R) (k : Z) : IZR k <= x < IZR k + 1 → Int_part x = k.
Proof. intros [H1 H2]. symmetry. apply Int_part_spec. lra. Qed.

Lemma Int_part_IZR (k : Z) : Int_part (IZR k) = k.
Proof. apply Int_part_unique. lra. Qed.

Lemma py_int_nonneg (x : R) : 0 <= x → py_int x = Int_part x.
Proof. intros Hx. unfold py_int. destruct (Rle_dec 0 x); [done | lra]. Qed.

Lemma py_int_floor (x : R) (k : Z) :
  0 <= x → IZR k <= x < IZR k + 1 → py_int x = k.
Proof. intros Hx Hk. rewrite py_int_nonneg by done. by apply Int_part_unique. Qed.

(** On [0 <= x < n] the truncation is one of [0 .. n-1]. *)
Lemma py_int_range (x : R) (n : Z) :
  0 <= x < IZR n → (0 ≤ py_int x < n)%Z.
Proof.
  intros [H0 Hn]. rewrite py_int_nonneg by done.
  destruct (Int_part_bounds x) as [Hlo Hhi]. split.
  - apply le_IZR. enough (IZR 0 - 1 < IZR (Int_part x)) as H.
    { rewrite <- minus_IZR in H. apply lt_IZR in H. apply IZR_le. lia. }
    simpl. lra.
  - apply lt_IZR. lra.
Qed.

Lemma py_max_Rmax (a b : R) : py_max a b = Rmax a b.
Proof.
  unfold py_max, Rmax. destruct (Rlt_dec a b), (Rle_dec a b); try lra; done.
Qed.

Lemma py_min_Rmin (a b : R) : py_min a b = Rmin a b.
Proof.
  unfold py_min, Rmin. destruct (Rlt_dec b a), (Rle_dec a b); try lra; done.
Qed.

Lemma py_round_IZR (k : Z) : py_round (IZR k) = k.
Proof.
  unfold py_round. rewrite Int_part_IZR.
  destruct (Rlt_dec (IZR k - IZR k) (1 / 2)); [done | lra].
Qed.

(** [round] returns a nearest integer. *)
Lemma py_round_nearest (x : R) : Rabs (x - IZR (py_round x)) <= 1 / 2.
Proof.
  unfold py_round. destruct (Int_part_bounds x) as [Hlo Hhi].
  set (f := Int_part x) in *.
  destruct (Rlt_dec (x - IZR f) (1 / 2)) as [Hd | Hd].
  - apply Rabs_le. lra.
  - assert (Rabs (x - IZR (f + 1)) <= 1 / 2) as Hup.
    { rewrite plus_IZR. apply Rabs_le. lra. }
    destruct (Rlt_dec (1 / 2) (x - IZR f)); [done |].
    destruct (Z.even f); [| done]. apply Rabs_le. lra.
Qed.

End NumFacts.

(** ** Metric computation *)

Section MetricFacts.
Import Num Analyzer.
Local Open Scope R_scope.

(** In the closed first quadrant [atan2] stays between 0 and pi/2. *)
Lemma math_atan2_quadrant (y x : R) :
  0 <= y → 0 <= x → 0 <= math_atan2 y x <= PI / 2.
Proof.
  intros Hy Hx. pose proof PI_RGT_0 as Hpi. unfold math_atan2.
  destruct (Rlt_dec 0 x) as [Hpos | Hnpos].
  - destruct (atan_bound (y / x)) as [_ Hub]. split; [| lra].
    destruct (Req_dec_T y 0) as [-> | Hy0].
    + unfold Rdiv. rewrite Rmult_0_l, atan_0. lra.
    + rewrite <- atan_0. apply Rlt_le, atan_increasing.
      apply Rdiv_lt_0_compat; lra.
  - destruct (Rlt_dec x 0); [lra |].
    destruct (Rlt_dec 0 y); [lra |].
    destruct (Rlt_dec y 0); lra.
Qed.

Lemma math_atan2_origin : math_atan2 0 0 = 0.
Proof.
  unfold math_atan2.
  destruct (Rlt_dec 0 0); [lra |]. destruct (Rlt_dec 0 0); [lra | done].
Qed.

Lemma degrees_quadrant (a : R) : 0 <= a <= PI / 2 → 0 <= degrees a <= 90.
Proof.
  intros [Hlo Hhi]. pose proof PI_RGT_0 as Hpi. unfold degrees.
  assert (0 < 180 / PI) as Hk by (apply Rdiv_lt_0_compat; lra).
  split; [apply Rmult_le_pos; lra |].
  replace 90 with (PI / 2 * (180 / PI)) by (field; lra).
  apply Rmult_le_compat_r; lra.
Qed.

(** The angle of a vector from the horizontal, both components taken in
    absolute value. *)
Lemma quadrant_angle_range (dy dx : R) :
  0 <= degrees (math_atan2 (Rabs dy) (Rabs dx)) <= 90.
Proof. apply degrees_quadrant, math_atan2_quadrant; apply Rabs_pos. Qed.

Lemma spine_lean_unfold (hx hy sx sy : R) (hrest srest : list R) :
  calculate_spine_lean (hx :: hy :: hrest) (sx :: sy :: srest)
  = Rabs (90 - degrees (math_atan2 (Rabs (sy - hy)) (Rabs (sx - hx)))).
Proof. reflexivity. Qed.

(** A spine of length zero: [atan2(0, 0)] is 0, the lean is 90. *)
Lemma spine_lean_same_position (x y : R) (hrest srest : list R) :
  calculate_spine_lean (x :: y :: hrest) (x :: y :: srest) = 90.
Proof.
  rewrite spine_lean_unfold, !Rminus_diag, Rabs_R0, math_atan2_origin.
  unfold degrees. rewrite Rmult_0_l, Rminus_0_r. apply Rabs_pos_eq. lra.
Qed.

(** C6, as the code has it: on points with their two coordinates the spine
    lean is [|90 - atan2(|dy|, |dx|)|] in degrees and lies in [0, 90]; equal
    hip and shoulder positions give 90, since [atan2(0, 0)] is 0 and nothing
    is raised. *)
Theorem calculate_spine_lean_formula_range (hx hy sx sy : R) (hrest srest : list R) :
  let lean := calculate_spine_lean (hx :: hy :: hrest) (sx :: sy :: srest) in
  lean = Rabs (90 - degrees (math_atan2 (Rabs (sy - hy)) (Rabs (sx - hx))))
  ∧ 0 <= lean <= 90
  ∧ (sx = hx → sy = hy → lean = 90).
Proof.
  cbv zeta. rewrite spine_lean_unfold.
  pose proof (quadrant_angle_range (sy - hy) (sx - hx)) as Hq.
  split; [done |]. split.
  - split; [apply Rabs_pos |]. apply Rabs_le. lra.
  - intros -> ->. rewrite <- spine_lean_unfold with (hrest := hrest) (srest := srest).
    apply spine_lean_same_position.
Qed.

(** C6, as the spec states it, fails: equal hip and shoulder positions do
    not return 0.0, they return 90. *)
Lemma calculate_spine_lean_equal_points_not_zero :
  calculate_spine_lean [1 / 2; 1 / 2; 0] [1 / 2; 1 / 2; 0] = 90
  ∧ calculate_spine_lean [1 / 2; 1 / 2; 0] [1 / 2; 1 / 2; 0] ≠ 0.
Proof. rewrite spine_lean_same_position. split; [done | lra]. Qed.

(** The fallback 0.0 is what an exception gives: a point with fewer than
    two coordinates. *)
Lemma calculate_spine_lean_short_point (hip : list R) (sx : R) :
  calculate_spine_lean hip [sx] = 0.
Proof.
  unfold calculate_spine_lean. simpl.
  destruct (py_index hip 0); simpl; [| done].
  destruct (py_index hip 1); done.
Qed.

(** C10: the foot angle always lies in [0, 90] degrees, whatever the two
    points are, the fallback on an exception included. *)
Theorem calculate_foot_angle_range (ankle toe : list R) :
  0 <= calculate_foot_angle ankle toe <= 90.
Proof.
  unfold calculate_foot_angle.
  destruct (toe_offset ankle toe 0) as [dx |]; simpl; [| lra].
  destruct (toe_offset ankle toe 1) as [dy |]; simpl; [| lra].
  apply quadrant_angle_range.
Qed.

End MetricFacts.

Section AngleFacts.
Import Num Analyzer.
Local Open Scope R_scope.

(** On points with three coordinates the function computes the clipped
    cosine of the two vectors at [p2]. *)
Lemma calculate_angle_unfold (x1 y1 z1 x2 y2 z2 x3 y3 z3 : R) :
  calculate_angle [x1; y1; z1] [x2; y2; z2] [x3; y3; z3]
  = math_degrees (np_arccos (np_clip
      (np_true_divide
         ((x1 - x2) * (x3 - x2) + ((y1 - y2) * (y3 - y2) + 0))
         (sqrt ((x1 - x2) * (x1 - x2) + ((y1 - y2) * (y1 - y2) + 0))
          * sqrt ((x3 - x2) * (x3 - x2) + ((y3 - y2) * (y3 - y2) + 0))))
      (-1) 1)).
Proof. reflexivity. Qed.

Lemma np_true_divide_zero_zero : np_true_divide 0 0 = QNaN.
Proof.
  unfold np_true_divide.
  destruct (Req_dec_T 0 0) as [_ | H]; [| lra].
  destruct (Req_dec_T 0 0) as [_ | H]; [done | lra].
Qed.

(** C7 fails on the code: when one of the two vectors has length zero the
    quotient is 0/0, NumPy yields NaN with a warning and raises nothing, so
    the [except] branch and its 0.0 are never reached. *)
Theorem calculate_angle_degenerate_nan (x1 y1 z1 x2 y2 z2 x3 y3 z3 : R) :
  (x1 = x2 ∧ y1 = y2) ∨ (x3 = x2 ∧ y3 = y2) →
  calculate_angle [x1; y1; z1] [x2; y2; z2] [x3; y3; z3] = NaN
  ∧ calculate_angle [x1; y1; z1] [x2; y2; z2] [x3; y3; z3] ≠ Fin 0.
Proof.
  intros Hdeg. rewrite calculate_angle_unfold.
  assert (np_true_divide
            ((x1 - x2) * (x3 - x2) + ((y1 - y2) * (y3 - y2) + 0))
            (sqrt ((x1 - x2) * (x1 - x2) + ((y1 - y2) * (y1 - y2) + 0))
             * sqrt ((x3 - x2) * (x3 - x2) + ((y3 - y2) * (y3 - y2) + 0)))
          = QNaN) as ->.
  { destruct Hdeg as [[-> ->] | [-> ->]]; rewrite !Rminus_diag.
    - rewrite !Rmult_0_l, !Rplus_0_l, sqrt_0, Rmult_0_l.
      apply np_true_divide_zero_zero.
    - rewrite !Rmult_0_r, !Rplus_0_l, sqrt_0, Rmult_0_r.
      apply np_true_divide_zero_zero. }
  done.
Qed.

Lemma calculate_angle_degenerate_nan_witness :
  calculate_angle [1 / 2; 1 / 2; 0] [1 / 2; 1 / 2; 0] [7 / 10; 1 / 2; 0] = NaN
  ∧ calculate_angle [1 / 2; 1 / 2; 0] [1 / 2; 1 / 2; 0] [7 / 10; 1 / 2; 0] ≠ Fin 0.
Proof. apply calculate_angle_degenerate_nan. left. split; reflexivity. Defined.

(** With [p1 = p3] away from [p2] the two vectors coincide, the cosine is 1
    and the angle 0: a computed value, not the fallback. *)
Lemma calculate_angle_same_ends (x1 y1 z1 x2 y2 z2 z3 : R) :
  x1 ≠ x2 ∨ y1 ≠ y2 →
  calculate_angle [x1; y1; z1] [x2; y2; z2] [x1; y1; z3] = Fin 0.
Proof.
  intros Hne. rewrite calculate_angle_unfold.
  set (s := (x1 - x2) * (x1 - x2) + ((y1 - y2) * (y1 - y2) + 0)).
  assert (0 < s) as Hs.
  { pose proof (Rle_0_sqr (x1 - x2)) as Hx. pose proof (Rle_0_sqr (y1 - y2)) as Hy.
    unfold Rsqr in Hx, Hy. unfold s.
    destruct Hne as [H | H].
    - assert (0 < Rsqr (x1 - x2)) as H' by (apply Rsqr_pos_lt; lra).
      unfold Rsqr in H'. lra.
    - assert (0 < Rsqr (y1 - y2)) as H' by (apply Rsqr_pos_lt; lra).
      unfold Rsqr in H'. lra. }
  rewrite sqrt_sqrt by lra. unfold np_true_divide.
  destruct (Req_dec_T s 0); [lra |].
  replace (s / s) with 1 by (field; lra). simpl.
  destruct (Rlt_dec 1 (-1)); [lra |].
  destruct (Rlt_dec 1 1); [lra |].
  destruct (Rle_dec (-1) 1); [| lra].
  destruct (Rle_dec 1 1); [| lra].
  simpl. rewrite acos_1. unfold degrees. by rewrite Rmult_0_l.
Qed.

(** The sibling metric divides Python floats: there a zero divisor raises
    and the [except] branch gives the fallback, here 1.0. *)
Lemma calculate_head_alignment_zero_width (hx kx : R) (hrest krest : list R) :
  calculate_head_alignment (hx :: hrest) (kx :: krest) 0 = 1.
Proof.
  unfold calculate_head_alignment, py_truediv. simpl.
  destruct (Req_dec_T 0 0) as [_ | H]; [done | lra].
Qed.

End AngleFacts.

(** ** Scoring *)

Section ScoreFacts.
Import Num Analyzer.
Local Open Scope R_scope.

Lemma within_true (range : R * R) (v : R) :
  within range v = true ↔ fst range <= v <= snd range.
Proof.
  unfold within.
  destruct (Rle_dec (fst range) v), (Rle_dec v (snd range)); split;
    intros H; try done; lra.
Qed.

Lemma within_false (range : R * R) (v : R) :
  within range v = false ↔ ¬ (fst range <= v <= snd range).
Proof.
  rewrite <- within_true. destruct (within range v); split; intros H; try done.
Qed.

(** A draw scaled by [n] truncates to one of [0 .. n-1]. *)
Lemma scaled_draw_range (g : RandomState) (n : Z) :
  valid_rng g → (0 < n)%Z →
  (0 ≤ py_int ((np_random_random g).1 * IZR n) < n)%Z.
Proof.
  intros Hg Hn. apply py_int_range. simpl.
  destruct (Hg (cursor g)) as [Hlo Hhi].
  assert (0 < IZR n) as Hn' by (by apply IZR_lt in Hn).
  split; [apply Rmult_le_pos; lra | nra].
Qed.

(** C1: a zero value scores 1; a non-zero value scores 9 or 10 inside the
    excellent range (bounds included), else 6, 7 or 8 inside the good range
    (bounds included), else [max(1, 6 - floor(|value - center| / 10))] with
    [center] the midpoint of the excellent range. *)
Theorem score_metric_bands (value : R) (th : ThresholdBand) (g : RandomState) :
  valid_rng g →
  let score := (_score_metric value th g).1 in
  let center := (fst (excellent th) + snd (excellent th)) / 2 in
  (value = 0 → score = 1%Z)
  ∧ (value ≠ 0 → fst (excellent th) <= value <= snd (excellent th) →
     score = 9%Z ∨ score = 10%Z)
  ∧ (value ≠ 0 → ¬ (fst (excellent th) <= value <= snd (excellent th)) →
     fst (good th) <= value <= snd (good th) →
     score = 6%Z ∨ score = 7%Z ∨ score = 8%Z)
  ∧ (value ≠ 0 → ¬ (fst (excellent th) <= value <= snd (excellent th)) →
     ¬ (fst (good th) <= value <= snd (good th)) →
     ∃ k : Z, IZR k <= Rabs (value - center) / 10 < IZR k + 1
              ∧ score = Z.max 1 (6 - k)).
Proof.
  intros Hg. cbv zeta. unfold _score_metric.
  destruct (Req_dec_T value 0) as [Hz | Hnz].
  { split; [done |]. repeat split; intros; done. }
  split; [done |].
  pose proof (scaled_draw_range g 2 Hg ltac:(lia)) as H2.
  pose proof (scaled_draw_range g 3 Hg ltac:(lia)) as H3.
  destruct (within (excellent th) value) eqn:Hexc.
  - apply within_true in Hexc.
    split; [| split]; intros; try done. simpl in *. lia.
  - apply within_false in Hexc.
    destruct (within (good th) value) eqn:Hgood.
    + apply within_true in Hgood.
      split; [| split]; intros; try done. simpl in *. lia.
    + apply within_false in Hgood.
      split; [| split]; intros; try done. simpl.
      set (d := Rabs (value - (fst (excellent th) + snd (excellent th)) / 2) / 10).
      assert (0 <= d) as Hd.
      { unfold d. pose proof (Rabs_pos (value - (fst (excellent th) + snd (excellent th)) / 2)).
        lra. }
      exists (py_int d). split; [| done].
      rewrite py_int_nonneg by done. apply Int_part_bounds.
Qed.

Lemma constant_rng_valid (r : R) : 0 <= r < 1 → valid_rng (Samples.constant_rng r).
Proof. intros Hr n. exact Hr. Qed.

Lemma score_metric_bands_witness :
  let th := thresholds_elbow_angle in
  let score := (_score_metric 110 th (Samples.constant_rng (1 / 2))).1 in
  let center := (fst (excellent th) + snd (excellent th)) / 2 in
  (110 = 0 → score = 1%Z)
  ∧ (110 ≠ 0 → fst (excellent th) <= 110 <= snd (excellent th) →
     score = 9%Z ∨ score = 10%Z)
  ∧ (110 ≠ 0 → ¬ (fst (excellent th) <= 110 <= snd (excellent th)) →
     fst (good th) <= 110 <= snd (good th) →
     score = 6%Z ∨ score = 7%Z ∨ score = 8%Z)
  ∧ (110 ≠ 0 → ¬ (fst (excellent th) <= 110 <= snd (excellent th)) →
     ¬ (fst (good th) <= 110 <= snd (good th)) →
     ∃ k : Z, IZR k <= Rabs (110 - center) / 10 < IZR k + 1
              ∧ score = Z.max 1 (6 - k)).
Proof.
  apply (score_metric_bands 110 thresholds_elbow_angle (Samples.constant_rng (1 / 2))).
  apply constant_rng_valid. lra.
Defined.

End ScoreFacts.

(** ** Aggregation and evaluation *)

Section EvaluationFacts.
Import Num Analyzer Spec.
Local Open Scope R_scope.

Lemma sample_positive (field : string) (m : gmap string pyfloat) (x : R) :
  dict_get m field = Fin x → 0 < x → sample field m = Some x.
Proof.
  intros Hget Hx. unfold sample. rewrite Hget. simpl.
  destruct (Rlt_dec 0 x); done.
Qed.

Lemma sample_none (field : string) (m : gmap string pyfloat) :
  (∀ x, dict_get m field = Fin x → ¬ 0 < x) → sample field m = None.
Proof.
  intros Hskip. unfold sample. destruct (dict_get m field) as [x |]; [| done].
  simpl. destruct (Rlt_dec 0 x) as [Hx | Hx]; [| done]. by destruct (Hskip x).
Qed.

Lemma positive_samples_omap (field : string) records vs :
  positive_samples field records vs → omap (sample field) records = vs.
Proof.
  induction 1 as [| m records x vs Hget Hpos _ IH | m records vs Hskip _ IH].
  - done.
  - rewrite <- IH. cbn. by rewrite (sample_positive _ _ _ Hget Hpos).
  - rewrite <- IH. cbn. by rewrite (sample_none _ _ Hskip).
Qed.

(** Every sequence of records has its positive samples. *)
Lemma positive_samples_total (field : string) records :
  ∃ vs, positive_samples field records vs.
Proof.
  induction records as [| m records [vs IH]]; [exists []; constructor |].
  destruct (dict_get m field) as [x |] eqn:Hget.
  - destruct (Rlt_dec 0 x) as [Hx | Hx].
    + exists (x :: vs). by constructor.
    + exists vs. apply positive_samples_skip; [| done].
      intros y Hy. rewrite Hget in Hy. by injection Hy as <-.
  - exists vs. apply positive_samples_skip; [| done].
    intros y Hy. by rewrite Hget in Hy.
Qed.

Lemma length_pos_INR {A} (a : A) (l : list A) : INR (length (a :: l)) ≠ 0.
Proof. apply not_0_INR. simpl. lia. Qed.

Lemma average_mean_or_zero (field : string) records vs :
  positive_samples field records vs →
  mean_or_zero vs (average field records).
Proof.
  intros Hvs. unfold average. rewrite (positive_samples_omap _ _ _ Hvs).
  destruct vs as [| v vs]; [done |].
  unfold mean_or_zero, np_mean. field. apply length_pos_INR.
Qed.

Lemma average_metrics_lookup (records : list (gmap string pyfloat)) (field : string) :
  field ∈ metric_names → average_metrics records !! field = Some (average field records).
Proof.
  unfold metric_names, average_metrics. intros Hf.
  repeat (apply elem_of_cons in Hf as [-> | Hf]); [..| by apply elem_of_nil in Hf];
    simpl; by simplify_map_eq.
Qed.

Lemma evaluate_technique_summary records (g : RandomState) :
  records ≠ [] →
  metrics_summary (evaluate_technique records g).1 = average_metrics records.
Proof.
  intros Hne. destruct records as [| m records]; [done |].
  unfold evaluate_technique.
  repeat match goal with
         | |- context [let '(_, _) := ?e in _] => destruct e
         end.
  reflexivity.
Qed.

Lemma evaluate_technique_head_score records (g : RandomState) :
  records ≠ [] →
  scores (evaluate_technique records g).1 !! "head_position"
  = Some (py_round (py_max 1 (py_min 10
            (10 - (average_metrics records !!! "head_alignment") * 10)))).
Proof.
  intros Hne. destruct records as [| m records]; [done |].
  unfold evaluate_technique.
  repeat match goal with
         | |- context [let '(_, _) := ?e in _] => destruct e
         end.
  simpl. by simplify_map_eq.
Qed.

(** C2: on an empty sequence of metrics the evaluation is the fixed default:
    the five categories, and no other, score 5, each feedback list is the
    single "analysis incomplete" line, the four summary fields are zero; a
    value is returned and the generator is left untouched. *)
Theorem evaluate_technique_empty (g : RandomState) :
  let ev := (evaluate_technique [] g).1 in
  let categories :=
    ["footwork"; "head_position"; "swing_control"; "balance"; "follow_through"] in
  evaluate_technique [] g = (_default_evaluation, g)
  ∧ (∀ c, c ∈ categories →
       scores ev !! c = Some 5%Z
       ∧ feedback ev !! c
         = Some ["Analysis incomplete - please ensure clear video quality"])
  ∧ (∀ c, c ∉ categories → scores ev !! c = None ∧ feedback ev !! c = None)
  ∧ (∀ f, f ∈ metric_names → metrics_summary ev !! f = Some 0)
  ∧ (∀ f, f ∉ metric_names → metrics_summary ev !! f = None).
Proof.
  cbv zeta.
  change (evaluate_technique [] g) with (_default_evaluation, g).
  unfold _default_evaluation, metric_names, incomplete_line.
  cbn [fst scores feedback metrics_summary].
  split_and!.
  - done.
  - intros c Hc.
    repeat (apply elem_of_cons in Hc as [-> | Hc]); [..| by apply elem_of_nil in Hc];
      by simplify_map_eq.
  - intros c Hc. rewrite !not_elem_of_cons in Hc. destruct_and!.
    by rewrite !lookup_insert_ne, !lookup_empty by done.
  - intros f Hf.
    repeat (apply elem_of_cons in Hf as [-> | Hf]); [..| by apply elem_of_nil in Hf];
      by simplify_map_eq.
  - intros f Hf. rewrite !not_elem_of_cons in Hf. destruct_and!.
    by rewrite !lookup_insert_ne, !lookup_empty by done.
Qed.

(** C3: on a non-empty sequence of records, the aggregate of each of the
    four fields is the mean of the values strictly greater than zero across
    all records, and 0 when no record has one. *)
Theorem aggregate_mean_of_positive records (g : RandomState)
    (field : string) (vs : list R) :
  records ≠ [] → field ∈ metric_names →
  positive_samples field records vs →
  ∃ a, metrics_summary (evaluate_technique records g).1 !! field = Some a
       ∧ mean_or_zero vs a
       ∧ (vs = [] → a = 0)
       ∧ (vs ≠ [] → a = Rsum vs / INR (length vs)).
Proof.
  intros Hne Hfield Hvs. exists (average field records).
  rewrite evaluate_technique_summary by done.
  split; [by apply average_metrics_lookup |].
  pose proof (average_mean_or_zero _ _ _ Hvs) as Hmean.
  split; [done |]. destruct vs as [| v vs]; split; try done.
  intros _. unfold mean_or_zero in Hmean. pose proof (length_pos_INR v vs) as Hlen.
  rewrite <- Hmean. field. exact Hlen.
Qed.

Lemma aggregate_mean_of_positive_witness :
  ∃ a, metrics_summary
         (evaluate_technique
            [Samples.head_only_frame (1 / 2); Samples.head_only_frame (1 / 4)]
            (Samples.constant_rng (1 / 2))).1 !! "head_alignment" = Some a
       ∧ mean_or_zero [1 / 2; 1 / 4] a
       ∧ ([1 / 2; 1 / 4] = [] → a = 0)
       ∧ ([1 / 2; 1 / 4] ≠ [] → a = Rsum [1 / 2; 1 / 4] / INR (length [1 / 2; 1 / 4])).
Proof.
  apply aggregate_mean_of_positive.
  - discriminate.
  - unfold metric_names. rewrite !elem_of_cons. auto.
  - apply positive_samples_keep; [reflexivity | lra |].
    apply positive_samples_keep; [reflexivity | lra |].
    apply positive_samples_nil.
Defined.

(** C8: the head-position score is [round(clamp(10 - a * 10, 1, 10))] for
    the aggregate head alignment [a]: 10 at 0, 1 at 1, 5 at 1/2. *)
Theorem head_position_score records (g : RandomState) :
  records ≠ [] →
  let ev := (evaluate_technique records g).1 in
  ∃ a, metrics_summary ev !! "head_alignment" = Some a
       ∧ scores ev !! "head_position"
         = Some (py_round (Rmax 1 (Rmin 10 (10 - a * 10))))
       ∧ (a = 0 → scores ev !! "head_position" = Some 10%Z)
       ∧ (a = 1 → scores ev !! "head_position" = Some 1%Z)
       ∧ (a = 1 / 2 → scores ev !! "head_position" = Some 5%Z).
Proof.
  intros Hne. cbv zeta. exists (average "head_alignment" records).
  assert (average_metrics records !! "head_alignment"
          = Some (average "head_alignment" records)) as Hlk.
  { apply average_metrics_lookup. unfold metric_names.
    rewrite !elem_of_cons. auto. }
  rewrite evaluate_technique_summary, evaluate_technique_head_score by done.
  rewrite lookup_total_alt, Hlk, py_max_Rmax, py_min_Rmin. simpl.
  split; [done |]. split; [done |].
  split; [| split]; intros ->; f_equal.
  - replace (10 - 0 * 10) with 10 by lra.
    rewrite Rmin_left, Rmax_right by lra. apply py_round_IZR.
  - replace (10 - 1 * 10) with 0 by lra.
    rewrite Rmin_right, Rmax_left by lra. apply py_round_IZR.
  - replace (10 - 1 / 2 * 10) with 5 by lra.
    rewrite Rmin_right, Rmax_right by lra. apply py_round_IZR.
Qed.

Lemma head_position_score_witness :
  let ev := (evaluate_technique [Samples.head_only_frame (1 / 2)]
               (Samples.constant_rng (1 / 2))).1 in
  ∃ a, metrics_summary ev !! "head_alignment" = Some a
       ∧ scores ev !! "head_position"
         = Some (py_round (Rmax 1 (Rmin 10 (10 - a * 10))))
       ∧ (a = 0 → scores ev !! "head_position" = Some 10%Z)
       ∧ (a = 1 → scores ev !! "head_position" = Some 1%Z)
       ∧ (a = 1 / 2 → scores ev !! "head_position" = Some 5%Z).
Proof. apply head_position_score. discriminate. Defined.

End EvaluationFacts.

(** ** Analysis of a video file *)

Section AnalysisFacts.
Import Num Analyzer Spec.

(** Whatever fails inside the analysis leaves wrapped in one message. *)
Lemma analyze_video_file_raise dir path (w : World) (e : exn) :
  (analyze_video_file dir path w).1 = Raise e →
  ∃ m, e = Exception ("Video analysis failed: " ++ m).
Proof.
  unfold analyze_video_file.
  destruct (if decide (path ∈ files w) then _ else _) as [[res | e'] w'];
    simpl; intros H; [done |].
  injection H as <-. by eexists.
Qed.

Lemma analysis_message_nonempty (e : exn) :
  (∃ m, e = Exception ("Video analysis failed: " ++ m)) → exn_str e ≠ "".
Proof. intros [m ->]. done. Qed.

(** The four ways the analysis can fail. *)
Lemma analyze_video_file_missing dir path (w : World) :
  path ∉ files w →
  analyze_video_file dir path w
  = (Raise (Exception ("Video analysis failed: " ++ "Video file not found: " ++ path)), w).
Proof.
  intros Hmiss. unfold analyze_video_file.
  destruct (decide (path ∈ files w)); done.
Qed.

Lemma analyze_video_file_unreadable dir path (w : World) :
  path ∈ files w → is_opened (videos w path) = false →
  analyze_video_file dir path w
  = (Raise (Exception ("Video analysis failed: " ++ "Could not open video file")), w).
Proof.
  intros Hin Hopen. unfold analyze_video_file.
  destruct (decide (path ∈ files w)); [| done]. by rewrite Hopen.
Qed.

Lemma analyze_video_file_extraction_error dir path (w : World) (e : exn) :
  path ∈ files w → is_opened (videos w path) = true →
  frame_loop (frames (videos w path)) (frame_width (videos w path)) [] 0 = Raise e →
  analyze_video_file dir path w
  = (Raise (Exception ("Video analysis failed: " ++ exn_str e)), w).
Proof.
  intros Hin Hopen Hloop. unfold analyze_video_file.
  destruct (decide (path ∈ files w)); [| done]. by rewrite Hopen, Hloop.
Qed.

Lemma analyze_video_file_save_error dir path (w : World) (e : exn) all_metrics n :
  path ∈ files w → is_opened (videos w path) = true →
  frame_loop (frames (videos w path)) (frame_width (videos w path)) [] 0
  = Ok (all_metrics, n) →
  save_error w = Some e →
  (analyze_video_file dir path w).1
  = Raise (Exception ("Video analysis failed: " ++ exn_str e)).
Proof.
  intros Hin Hopen Hloop Hsave. unfold analyze_video_file.
  destruct (decide (path ∈ files w)); [| done]. rewrite Hopen, Hloop.
  destruct (evaluate_technique all_metrics (random_state w)) as [ev g].
  simpl. by rewrite Hsave.
Qed.

Lemma frame_loop_no_pose (fs : list (result PoseResults)) (width : Z)
    (acc : list (gmap string pyfloat)) (n : Z) :
  Forall no_pose fs →
  frame_loop fs width acc n = Ok (acc, (n + Z.of_nat (length fs))%Z).
Proof.
  intros Hfs. revert n.
  induction Hfs as [| f fs (results & -> & Hnone) _ IH]; intros n; simpl.
  - do 2 f_equal. lia.
  - rewrite Hnone. simpl. rewrite IH. do 2 f_equal. lia.
Qed.

Lemma analyze_video_file_dump_error dir path (w : World) (e : exn) all_metrics n :
  path ∈ files w → is_opened (videos w path) = true →
  frame_loop (frames (videos w path)) (frame_width (videos w path)) [] 0
  = Ok (all_metrics, n) →
  save_error w = None → dump_error w = Some e →
  (analyze_video_file dir path w).1
  = Raise (Exception ("Video analysis failed: " ++ exn_str e)).
Proof.
  intros Hin Hopen Hloop Hsave Hdump. unfold analyze_video_file.
  destruct (decide (path ∈ files w)); [| done]. rewrite Hopen, Hloop.
  destruct (evaluate_technique all_metrics (random_state w)) as [ev g].
  simpl. rewrite Hsave. simpl. by rewrite Hdump.
Qed.

(** A readable video without any detected pose is analysed to the default
    evaluation, provided the evaluation file can be created and written. *)
Lemma analyze_video_file_no_pose dir path (w : World) :
  path ∈ files w → is_opened (videos w path) = true →
  Forall no_pose (frames (videos w path)) →
  save_error w = None → dump_error w = None →
  ∃ res, (analyze_video_file dir path w).1 = Ok res
         ∧ evaluation res = _default_evaluation.
Proof.
  intros Hin Hopen Hfs Hsave Hdump. unfold analyze_video_file.
  destruct (decide (path ∈ files w)); [| done].
  rewrite Hopen, (frame_loop_no_pose _ _ _ _ Hfs).
  change (evaluate_technique [] (random_state w))
    with (_default_evaluation, random_state w).
  simpl. rewrite Hsave. simpl. rewrite Hdump. simpl. by eexists.
Qed.

End AnalysisFacts.

(** ** The job runner *)

Section RunnerFacts.
Import Num Analyzer Spec Server.

Lemma begin_processing_found id (st : ServerState) (r : JobRecord) :
  analysis_results st !! id = Some r →
  begin_processing id st
  = Ok (set_analysis_results
          (<[id := set_status processing r]> (analysis_results st)) st).
Proof. intros Hr. unfold begin_processing, py_getitem. by rewrite Hr. Qed.

Lemma store_result_found id res (st : ServerState) (r : JobRecord) :
  analysis_results st !! id = Some r →
  store_result id res st
  = Ok (set_analysis_results
          (<[id := update_completed (utcnow st) res r]> (analysis_results st)) st).
Proof. intros Hr. unfold store_result, py_getitem. by rewrite Hr. Qed.

(** The handler, on a job that exists: the record is marked failed and the
    handler returns, whatever [os.remove] does. *)
Lemma handle_failure_found faults id path up (e : exn) (st : ServerState)
    (r : JobRecord) :
  analysis_results st !! id = Some r →
  let h := handle_failure faults id path up e st in
  h.1 = Ok ()
  ∧ analysis_results h.2 !! id = Some (update_failed (utcnow st) (exn_str e) r)
  ∧ (up = true → remove_error faults = None → path ∉ files (world h.2))
  ∧ (up = true → is_Some (remove_error faults) → files (world h.2) = files (world st))
  ∧ (up = false → files (world h.2) = files (world st)).
Proof.
  intros Hr. cbv zeta. unfold handle_failure, py_getitem. rewrite Hr. simpl.
  destruct up; simpl.
  - destruct (bool_decide (path ∈ files (world st))) eqn:Hin; simpl.
    + destruct (remove_error faults) as [e' |] eqn:Hrm; simpl.
      * rewrite lookup_insert_eq. split_and!; try done.
      * rewrite lookup_insert_eq. split_and!; try done.
        intros _ _. rewrite elem_of_difference, elem_of_singleton. by intros [_ ?].
    + apply bool_decide_eq_false in Hin. rewrite lookup_insert_eq.
      split_and!; done.
  - rewrite lookup_insert_eq. split_and!; done.
Qed.

(** The run, once the analysis has raised: the handler takes over from the
    state the analysis leaves. *)
Lemma process_video_analysis_raised faults id path up (st : ServerState)
    (r : JobRecord) (e : exn) :
  analysis_results st !! id = Some r →
  (analyze_video_file OUTPUT_DIR path (world st)).1 = Raise e →
  process_video_analysis faults id path up st
  = handle_failure faults id path up e
      (set_world (analyze_video_file OUTPUT_DIR path (world st)).2
         (set_analysis_results
            (<[id := set_status processing r]> (analysis_results st)) st)).
Proof.
  intros Hr Hraise. unfold process_video_analysis.
  rewrite (begin_processing_found _ _ _ Hr). simpl.
  destruct (analyze_video_file OUTPUT_DIR path (world st)) as [outcome w].
  simpl in *. by rewrite Hraise.
Qed.

(** C4: when a step of the analysis raises (missing file, unreadable video,
    an error while extracting poses, evaluating or saving), the run ends
    normally with the job marked failed, a non-empty error message and the
    completion time set; an uploaded video is removed, and a failing removal
    is ignored. *)
Theorem failed_analysis_marks_job_failed (faults : Faults) (id path : string)
    (up : bool) (st : ServerState) (r : JobRecord) (e : exn) :
  analysis_results st !! id = Some r →
  (analyze_video_file OUTPUT_DIR path (world st)).1 = Raise e →
  let run := process_video_analysis faults id path up st in
  let w := (analyze_video_file OUTPUT_DIR path (world st)).2 in
  run.1 = Ok ()
  ∧ (∃ r', analysis_results run.2 !! id = Some r'
           ∧ status r' = failed
           ∧ error_message r' = Some (exn_str e) ∧ exn_str e ≠ ""
           ∧ completed_at r' = Some (utcnow st))
  ∧ (up = true → remove_error faults = None → path ∉ files (world run.2))
  ∧ (up = true → is_Some (remove_error faults) → files (world run.2) = files w)
  ∧ (up = false → files (world run.2) = files w).
Proof.
  intros Hr Hraise. cbv zeta.
  rewrite (process_video_analysis_raised _ _ _ _ _ _ _ Hr Hraise).
  set (st1 := set_world _ _).
  assert (analysis_results st1 !! id = Some (set_status processing r)) as Hr1.
  { unfold st1. simpl. apply lookup_insert_eq. }
  destruct (handle_failure_found faults id path up e st1 _ Hr1)
    as (Hok & Hrec & Hrm & Hkeep & Hurl).
  split_and!; try done.
  eexists. split; [exact Hrec |]. split_and!; try done.
  apply analysis_message_nonempty. by eapply analyze_video_file_raise.
Qed.

Lemma failed_analysis_marks_job_failed_witness :
  let st := server (Samples.after_start Samples.empty_scene) in
  let path := "http://example.org/clip" in
  let e := Exception ("Video analysis failed: " ++ "Video file not found: " ++ path) in
  let run := process_video_analysis Samples.no_faults "job-2" path false st in
  let w := (analyze_video_file OUTPUT_DIR path (world st)).2 in
  run.1 = Ok ()
  ∧ (∃ r', analysis_results run.2 !! "job-2" = Some r'
           ∧ status r' = failed
           ∧ error_message r' = Some (exn_str e) ∧ exn_str e ≠ ""
           ∧ completed_at r' = Some (utcnow st))
  ∧ (false = true → remove_error Samples.no_faults = None →
     path ∉ files (world run.2))
  ∧ (false = true → is_Some (remove_error Samples.no_faults) →
     files (world run.2) = files w)
  ∧ (false = false → files (world run.2) = files w).
Proof.
  cbv zeta.
  eapply failed_analysis_marks_job_failed.
  - apply lookup_insert_eq.
  - rewrite analyze_video_file_missing; [reflexivity |].
    simpl. apply not_elem_of_empty.
Defined.

(** A failing database insert is handled the same way: the job, already
    marked completed, is marked failed; its result stays attached. *)
Lemma failed_insert_marks_job_failed (faults : Faults) (id path : string)
    (up : bool) (st : ServerState) (r : JobRecord) (res : AnalysisResult)
    (e : exn) :
  analysis_results st !! id = Some r →
  (analyze_video_file OUTPUT_DIR path (world st)).1 = Ok res →
  insert_error faults = Some e →
  let run := process_video_analysis faults id path up st in
  run.1 = Ok ()
  ∧ ∃ r', analysis_results run.2 !! id = Some r'
          ∧ status r' = failed
          ∧ error_message r' = Some (exn_str e)
          ∧ completed_at r' = Some (utcnow st)
          ∧ job_scores r' = Some (scores (evaluation res)).
Proof.
  intros Hr Hok Hins. cbv zeta. unfold process_video_analysis.
  rewrite (begin_processing_found _ _ _ Hr). simpl.
  destruct (analyze_video_file OUTPUT_DIR path (world st)) as [outcome w].
  simpl in Hok. subst outcome.
  set (st1 := set_world w _).
  assert (analysis_results st1 !! id = Some (set_status processing r)) as Hr1.
  { unfold st1. simpl. apply lookup_insert_eq. }
  rewrite (store_result_found _ _ _ _ Hr1).
  set (st2 := set_analysis_results _ st1).
  assert (analysis_results st2 !! id
          = Some (update_completed (utcnow st1) res (set_status processing r)))
    as Hr2.
  { unfold st2. simpl. apply lookup_insert_eq. }
  unfold insert_analysis, py_getitem. rewrite Hr2, Hins. simpl.
  destruct (handle_failure_found faults id path up e st2 _ Hr2) as (H1 & H2 & _).
  split; [done |]. eexists. split; [exact H2 |]. done.
Qed.

(** A readable video without poses whose result cannot be stored in the
    database: the handler runs after the job was marked completed and the
    job ends failed. *)
Lemma no_pose_video_insert_failure (faults : Faults) (id path : string)
    (up : bool) (st : ServerState) (r : JobRecord) (e : exn) :
  analysis_results st !! id = Some r →
  path ∈ files (world st) →
  is_opened (videos (world st) path) = true →
  Forall no_pose (frames (videos (world st) path)) →
  save_error (world st) = None →
  dump_error (world st) = None →
  insert_error faults = Some e →
  ∃ r', analysis_results (process_video_analysis faults id path up st).2 !! id
        = Some r'
        ∧ status r' = failed.
Proof.
  intros Hr Hin Hopen Hfs Hsave Hdump Hins.
  destruct (analyze_video_file_no_pose OUTPUT_DIR path _ Hin Hopen Hfs Hsave Hdump)
    as (res & Hres & _).
  unfold process_video_analysis.
  rewrite (begin_processing_found _ _ _ Hr). simpl.
  destruct (analyze_video_file OUTPUT_DIR path (world st)) as [outcome w].
  simpl in Hres. subst outcome.
  set (st1 := set_world w _).
  assert (analysis_results st1 !! id = Some (set_status processing r)) as Hr1.
  { unfold st1. simpl. apply lookup_insert_eq. }
  rewrite (store_result_found _ _ _ _ Hr1).
  set (st2 := set_analysis_results _ st1).
  assert (analysis_results st2 !! id
          = Some (update_completed (utcnow st1) res (set_status processing r)))
    as Hr2.
  { unfold st2. simpl. apply lookup_insert_eq. }
  unfold insert_analysis, py_getitem. rewrite Hr2, Hins. simpl.
  destruct (handle_failure_found faults id path up e st2 _ Hr2) as (_ & Hrec & _).
  eexists. split; [exact Hrec |]. done.
Qed.

(** C5, as the spec states it, fails: a readable video in which no frame
    yields pose landmarks ends as a failed job when the database insert
    raises. *)
Lemma no_pose_video_failed_on_insert_error :
  let fl := {| insert_error := Some (Exception "database unreachable");
               remove_error := None |} in
  let st := server (Samples.after_upload Samples.empty_scene) in
  let path := "backend/output/uploaded_job-1.mp4" in
  path ∈ files (world st)
  ∧ is_opened (videos (world st) path) = true
  ∧ Forall no_pose (frames (videos (world st) path))
  ∧ ∃ r', analysis_results (process_video_analysis fl "job-1" path true st).2
          !! "job-1" = Some r'
          ∧ status r' = failed.
Proof.
  cbv zeta.
  assert ("backend/output/uploaded_job-1.mp4"
          ∈ files (world (server (Samples.after_upload Samples.empty_scene))))
    as Hin.
  { simpl. apply elem_of_union_l, elem_of_singleton. reflexivity. }
  assert (Forall no_pose
            (frames (videos (world (server (Samples.after_upload Samples.empty_scene)))
                       "backend/output/uploaded_job-1.mp4"))) as Hfs.
  { simpl. repeat constructor; by eexists. }
  split; [exact Hin |]. split; [reflexivity |]. split; [exact Hfs |].
  by apply (no_pose_video_insert_failure _ "job-1" _ true _ _
              (Exception "database unreachable") (lookup_insert_eq _ _ _)).
Qed.

(** C5, as the code has it: a readable video in which no frame yields pose
    landmarks ends as a completed job carrying the default evaluation, every
    score 5, and not as a failed one, provided that creating and writing the
    evaluation file and the database insert raise nothing. *)
Theorem no_pose_video_completes_with_default (faults : Faults) (id path : string)
    (up : bool) (st : ServerState) (r : JobRecord) :
  analysis_results st !! id = Some r →
  path ∈ files (world st) →
  is_opened (videos (world st) path) = true →
  Forall no_pose (frames (videos (world st) path)) →
  save_error (world st) = None →
  dump_error (world st) = None →
  insert_error faults = None →
  let run := process_video_analysis faults id path up st in
  run.1 = Ok ()
  ∧ ∃ r', analysis_results run.2 !! id = Some r'
          ∧ status r' = completed ∧ status r' ≠ failed
          ∧ error_message r' = error_message r
          ∧ completed_at r' = Some (utcnow st)
          ∧ job_scores r' = Some (scores _default_evaluation)
          ∧ job_feedback r' = Some (feedback _default_evaluation)
          ∧ job_metrics_summary r' = Some (metrics_summary _default_evaluation)
          ∧ (∀ c, c ∈ ["footwork"; "head_position"; "swing_control";
                       "balance"; "follow_through"] →
                  ∃ sc, job_scores r' = Some sc ∧ sc !! c = Some 5%Z).
Proof.
  intros Hr Hin Hopen Hfs Hsave Hdump Hins. cbv zeta.
  destruct (analyze_video_file_no_pose OUTPUT_DIR path _ Hin Hopen Hfs Hsave Hdump)
    as (res & Hres & Hev).
  unfold process_video_analysis.
  rewrite (begin_processing_found _ _ _ Hr). simpl.
  destruct (analyze_video_file OUTPUT_DIR path (world st)) as [outcome w].
  simpl in Hres. subst outcome.
  set (st1 := set_world w _).
  assert (analysis_results st1 !! id = Some (set_status processing r)) as Hr1.
  { unfold st1. simpl. apply lookup_insert_eq. }
  rewrite (store_result_found _ _ _ _ Hr1).
  set (st2 := set_analysis_results _ st1).
  assert (analysis_results st2 !! id
          = Some (update_completed (utcnow st1) res (set_status processing r)))
    as Hr2.
  { unfold st2. simpl. apply lookup_insert_eq. }
  unfold insert_analysis, py_getitem. rewrite Hr2, Hins. simpl.
  split; [done |]. eexists. split; [apply lookup_insert_eq |].
  simpl. rewrite Hev. split_and!; try done.
  intros c Hc. eexists. split; [done |].
  repeat (apply elem_of_cons in Hc as [-> | Hc]); [..| by apply elem_of_nil in Hc];
    by simplify_map_eq.
Qed.

Lemma no_pose_video_completes_with_default_witness :
  let st := server (Samples.after_upload Samples.empty_scene) in
  let run :=
    process_video_analysis Samples.no_faults "job-1"
      "backend/output/uploaded_job-1.mp4" true st in
  run.1 = Ok ()
  ∧ ∃ r', analysis_results run.2 !! "job-1" = Some r'
          ∧ status r' = completed ∧ status r' ≠ failed
          ∧ error_message r' = None
          ∧ completed_at r' = Some (utcnow st)
          ∧ job_scores r' = Some (scores _default_evaluation)
          ∧ job_feedback r' = Some (feedback _default_evaluation)
          ∧ job_metrics_summary r' = Some (metrics_summary _default_evaluation)
          ∧ (∀ c, c ∈ ["footwork"; "head_position"; "swing_control";
                       "balance"; "follow_through"] →
                  ∃ sc, job_scores r' = Some sc ∧ sc !! c = Some 5%Z).
Proof.
  cbv zeta.
  pose proof (no_pose_video_completes_with_default Samples.no_faults "job-1"
                "backend/output/uploaded_job-1.mp4" true
                (server (Samples.after_upload Samples.empty_scene)) _
                (lookup_insert_eq _ _ _)) as H.
  apply H.
  - simpl. apply elem_of_union_l, elem_of_singleton. reflexivity.
  - reflexivity.
  - simpl. repeat constructor; by eexists.
  - reflexivity.
  - reflexivity.
  - reflexivity.
Defined.

End RunnerFacts.

(** ** Readers never see a completed job without its result *)

Section StoreFacts.
Import Num Analyzer Spec Server.

Lemma consistent_insert (st : ServerState) id (r : JobRecord) :
  consistent st →
  (status r = completed → result_attached r ∧ is_Some (completed_at r)) →
  consistent (set_analysis_results (<[id := r]> (analysis_results st)) st).
Proof.
  intros Hst Hr id' r'. simpl. rewrite lookup_insert.
  destruct (decide (id = id')) as [-> | Hne]; [| apply Hst].
  by intros [= <-].
Qed.

Lemma consistent_same_results (st st' : ServerState) :
  analysis_results st' = analysis_results st → consistent st → consistent st'.
Proof. intros Heq Hst id r. rewrite Heq. apply Hst. Qed.

Lemma update_completed_attached now res (r : JobRecord) :
  result_attached (update_completed now res r)
  ∧ is_Some (completed_at (update_completed now res r)).
Proof. split; [by exists (evaluation res) | by eexists]. Qed.

Lemma begin_processing_consistent id (st st' : ServerState) :
  begin_processing id st = Ok st' → consistent st → consistent st'.
Proof.
  unfold begin_processing, py_getitem.
  destruct (analysis_results st !! id) as [r |]; simpl; [| done].
  intros [= <-] Hst. by apply consistent_insert.
Qed.

Lemma store_result_consistent id res (st st' : ServerState) :
  store_result id res st = Ok st' → consistent st → consistent st'.
Proof.
  unfold store_result, py_getitem.
  destruct (analysis_results st !! id) as [r |]; simpl; [| done].
  intros [= <-] Hst. apply consistent_insert; [done |].
  intros _. apply update_completed_attached.
Qed.

Lemma insert_analysis_consistent err id up (st st' : ServerState) :
  insert_analysis err id up st = Ok st' → consistent st → consistent st'.
Proof.
  unfold insert_analysis, py_getitem.
  destruct (analysis_results st !! id) as [r |]; simpl; [| done].
  destruct err; [done |]. intros [= <-]. by apply consistent_same_results.
Qed.

Lemma handle_failure_consistent fl id path up (e : exn) (st : ServerState) :
  consistent st → consistent (handle_failure fl id path up e st).2.
Proof.
  intros Hst. unfold handle_failure, py_getitem.
  destruct (analysis_results st !! id) as [r |]; simpl; [| done].
  assert (consistent
            (set_analysis_results
               (<[id := update_failed (utcnow st) (exn_str e) r]> (analysis_results st))
               st)) as Hst'.
  { by apply consistent_insert. }
  destruct (up && bool_decide _); [| done].
  destruct (remove_error fl); [done |]. simpl.
  by eapply consistent_same_results.
Qed.

Lemma resume_consistent (d : Delivery) (t : Task) (st : ServerState) :
  consistent st → consistent (resume d t st).2.
Proof.
  intros Hst. unfold resume. destruct (stage t).
  - destruct (begin_processing _ st) as [st' |] eqn:Hb; simpl.
    + by eapply begin_processing_consistent.
    + by apply handle_failure_consistent.
  - assert (consistent (set_world (analysis_world d) st)) as Hw
      by by eapply consistent_same_results.
    destruct (analysis_outcome d) as [res | e]; simpl.
    + destruct (store_result _ res _) as [st' |] eqn:Hs; simpl.
      * by eapply store_result_consistent.
      * by apply handle_failure_consistent.
    + by apply handle_failure_consistent.
  - destruct (insert_analysis _ _ _ st) as [st' |] eqn:Hi; simpl.
    + by eapply insert_analysis_consistent.
    + by apply handle_failure_consistent.
  - done.
Qed.

Lemma step_consistent (s s' : System) :
  step s s' → consistent (server s) → consistent (server s').
Proof.
  intros Hstep Hs. destruct Hstep as [id fname path s | id url s Hurl | i d s | now s Hnow].
  - unfold upload_cricket_video. simpl.
    apply (consistent_insert (set_world _ (server s))); [| done].
    by eapply consistent_same_results.
  - unfold start_video_analysis. simpl. by apply consistent_insert.
  - unfold run_task. destruct (tasks s !! i) as [t |]; [| done].
    pose proof (resume_consistent d t (server s) Hs) as Hr.
    by destruct (resume d t (server s)).
  - simpl. by eapply consistent_same_results.
Qed.

Lemma reachable_consistent (s : System) : reachable s → consistent (server s).
Proof.
  intros [w Hreach]. revert s Hreach. apply rtc_ind_r.
  - intros id r. simpl. by rewrite lookup_empty.
  - intros s s' _ Hstep IH. by eapply step_consistent.
Qed.

(** C9: whenever a reader finds a job completed, the record it reads
    carries the scores, the feedback and the metrics summary of one
    evaluation, and its completion time: the status and the result appear
    in the same step. *)
Theorem completed_job_shows_result (s : System) (id : string) (r : JobRecord) :
  reachable s →
  get_analysis_result id (server s) = Some r →
  status r = completed →
  ∃ ev, job_scores r = Some (scores ev)
        ∧ job_feedback r = Some (feedback ev)
        ∧ job_metrics_summary r = Some (metrics_summary ev)
        ∧ is_Some (completed_at r).
Proof.
  intros Hreach Hget Hdone.
  destruct (reachable_consistent s Hreach id r Hget Hdone)
    as [(ev & H1 & H2 & H3) Htime].
  by exists ev.
Qed.

Lemma completed_job_shows_result_witness :
  ∃ r, get_analysis_result "job-1" (server Samples.after_analysis) = Some r
       ∧ status r = completed
       ∧ ∃ ev, job_scores r = Some (scores ev)
               ∧ job_feedback r = Some (feedback ev)
               ∧ job_metrics_summary r = Some (metrics_summary ev)
               ∧ is_Some (completed_at r).
Proof.
  eexists. split; [reflexivity |]. split; [reflexivity |].
  eapply (completed_job_shows_result Samples.after_analysis "job-1").
  - exists (Samples.world_with ∅ Samples.empty_scene).
    unfold Samples.after_analysis, Samples.after_upload.
    eapply rtc_l; [apply step_upload |].
    eapply rtc_l; [apply step_task |].
    eapply rtc_l; [apply step_task |].
    apply rtc_refl.
  - reflexivity.
  - reflexivity.
Defined.

(** The run of [process_video_analysis] is the run of its three blocks, the
    analysis being the one of the video at the time the runner starts. *)
Lemma process_video_analysis_blocks (fl : Faults) (id path : string) (up : bool)
    (st : ServerState) :
  let a := analyze_video_file OUTPUT_DIR path (world st) in
  let d := {| analysis_outcome := a.1; analysis_world := a.2; faults := fl |} in
  let t := {| task_analysis_id := id; task_video_path := path;
              task_is_uploaded := up; stage := Scheduled |} in
  (process_video_analysis fl id path up st).2 = run_blocks 3 d t st.
Proof.
  cbv zeta. unfold process_video_analysis, run_blocks, resume, at_stage.
  cbn [stage task_analysis_id task_video_path task_is_uploaded faults
       analysis_outcome analysis_world].
  destruct (begin_processing id st) as [st1 | e] eqn:Hb.
  2: { by destruct (handle_failure fl id path up e st). }
  assert (world st1 = world st) as Hw.
  { unfold begin_processing, py_getitem in Hb.
    destruct (analysis_results st !! id); simpl in Hb; [| done].
    by injection Hb as <-. }
  rewrite Hw.
  destruct (analyze_video_file OUTPUT_DIR path (world st)) as [[res | e] w];
    cbn [fst snd].
  2: { by destruct (handle_failure fl id path up e _). }
  destruct (store_result id res (set_world w st1)) as [st2 | e].
  2: { by destruct (handle_failure fl id path up e _). }
  destruct (insert_analysis (insert_error fl) id up st2) as [st3 | e]; [done |].
  by destruct (handle_failure fl id path up e _).
Qed.

End StoreFacts.

(** * Further properties of the metric computation *)

Section AngleGeometry.
Import Num Analyzer.
Local Open Scope R_scope.

Lemma Rsum_zip_mult_comm (a b : list R) :
  Rsum (zip_with Rmult a b) = Rsum (zip_with Rmult b a).
Proof.
  revert b. induction a as [| x a IH]; intros [| y b]; simpl; try done.
  rewrite IH. lra.
Qed.

Lemma np_dot_comm (a b : list R) : np_dot a b = np_dot b a.
Proof.
  unfold np_dot.
  destruct (decide (length a = length b)) as [Hl | Hl];
    destruct (decide (length b = length a)) as [Hl' | Hl']; try congruence.
  by rewrite Rsum_zip_mult_comm.
Qed.

(** The angle at [point2] does not depend on the order of the two other
    points, whatever the three lists are. *)
Theorem calculate_angle_symmetric (point1 point2 point3 : list R) :
  calculate_angle point1 point2 point3 = calculate_angle point3 point2 point1.
Proof.
  unfold calculate_angle.
  destruct (np_subtract (take 2 point1) (take 2 point2)) as [v1 | e1];
    destruct (np_subtract (take 2 point3) (take 2 point2)) as [v2 | e2];
    simpl; try done.
  rewrite (np_dot_comm v2 v1). destruct (np_dot v1 v2) as [d | e]; simpl; [| done].
  by rewrite (Rmult_comm (np_linalg_norm v2)).
Qed.

Lemma np_clip_bounds (q : quotient) (lo hi : R) :
  lo <= hi →
  match np_clip q lo hi with
  | Fin c => lo <= c <= hi
  | NaN => True
  end.
Proof.
  intros Hlh. destruct q as [v | | |]; simpl; try lra.
  destruct (Rlt_dec v lo); [lra |]. destruct (Rlt_dec hi v); lra.
Qed.

Lemma degrees_half_turn (a : R) : 0 <= a <= PI → 0 <= degrees a <= 180.
Proof.
  intros [Hlo Hhi]. pose proof PI_RGT_0 as Hpi. unfold degrees.
  assert (0 < 180 / PI) as Hk by (apply Rdiv_lt_0_compat; lra).
  split; [apply Rmult_le_pos; lra |].
  replace 180 with (PI * (180 / PI)) at 2 by (field; lra).
  apply Rmult_le_compat_r; lra.
Qed.

Lemma degrees_PI : degrees PI = 180.
Proof. pose proof PI_RGT_0. unfold degrees. field. lra. Qed.

Lemma degrees_half_PI : degrees (PI / 2) = 90.
Proof. pose proof PI_RGT_0. unfold degrees. field. lra. Qed.

Lemma angle_of_cosine_bounds (q : quotient) :
  match math_degrees (np_arccos (np_clip q (-1) 1)) with
  | Fin a => 0 <= a <= 180
  | NaN => True
  end.
Proof.
  pose proof (np_clip_bounds q (-1) 1 ltac:(lra)) as Hc.
  destruct (np_clip q (-1) 1) as [c |]; simpl; [| done].
  destruct (Rle_dec (-1) c); [| done]. destruct (Rle_dec c 1); [| done].
  simpl. apply degrees_half_turn. apply acos_bound.
Qed.

Lemma calculate_angle_bounds (point1 point2 point3 : list R) :
  match calculate_angle point1 point2 point3 with
  | Fin a => 0 <= a <= 180
  | NaN => True
  end.
Proof.
  unfold calculate_angle.
  destruct (np_subtract (take 2 point1) (take 2 point2)) as [v1 | e1]; simpl; [| lra].
  destruct (np_subtract (take 2 point3) (take 2 point2)) as [v2 | e2]; simpl; [| lra].
  destruct (np_dot v1 v2) as [d | e]; simpl; [| lra].
  apply angle_of_cosine_bounds.
Qed.

(** Whatever the three lists are, the angle is NaN or lies in [0, 180]
    degrees. *)
Theorem calculate_angle_range (point1 point2 point3 : list R) :
  calculate_angle point1 point2 point3 = NaN
  ∨ ∃ a, calculate_angle point1 point2 point3 = Fin a ∧ 0 <= a <= 180.
Proof.
  pose proof (calculate_angle_bounds point1 point2 point3) as H.
  destruct (calculate_angle point1 point2 point3) as [a |]; [right | by left].
  by exists a.
Qed.

Lemma sum_squares_pos (a b : R) : a ≠ 0 ∨ b ≠ 0 → 0 < a * a + (b * b + 0).
Proof.
  intros Hne. pose proof (Rle_0_sqr a) as Ha. pose proof (Rle_0_sqr b) as Hb.
  unfold Rsqr in Ha, Hb. destruct Hne as [H | H].
  - assert (0 < Rsqr a) as H' by (by apply Rsqr_pos_lt). unfold Rsqr in H'. lra.
  - assert (0 < Rsqr b) as H' by (by apply Rsqr_pos_lt). unfold Rsqr in H'. lra.
Qed.

Lemma acos_minus_1 : acos (-1) = PI.
Proof. replace (-1) with (Ropp 1) by lra. rewrite acos_opp, acos_1. lra. Qed.

(** The cosine computed from a dot product [d] and a product of norms [n],
    when it is exactly [c]. *)
Lemma angle_of_exact_cosine (d n c : R) :
  n ≠ 0 → d = c * n → -1 <= c <= 1 →
  math_degrees (np_arccos (np_clip (np_true_divide d n) (-1) 1))
  = Fin (degrees (acos c)).
Proof.
  intros Hn -> Hc. unfold np_true_divide.
  destruct (Req_dec_T n 0); [done |].
  replace (c * n / n) with c by (by field). simpl.
  destruct (Rlt_dec c (-1)); [lra |]. destruct (Rlt_dec 1 c); [lra |].
  destruct (Rle_dec (-1) c); [| lra]. destruct (Rle_dec c 1); [| lra]. done.
Qed.

(** Three points on a line, the middle one strictly between the two others,
    make an angle of 180 degrees. *)
Theorem calculate_angle_straight (x1 y1 z1 z2 x3 y3 z3 t : R) :
  0 < t < 1 → x1 ≠ x3 ∨ y1 ≠ y3 →
  calculate_angle [x1; y1; z1]
    [x1 + t * (x3 - x1); y1 + t * (y3 - y1); z2] [x3; y3; z3]
  = Fin 180.
Proof.
  intros Ht Hne. rewrite calculate_angle_unfold.
  set (wx := x3 - x1). set (wy := y3 - y1).
  assert (0 < wx * wx + (wy * wy + 0)) as Hs.
  { apply sum_squares_pos. unfold wx, wy. destruct Hne; [left | right]; lra. }
  set (s := wx * wx + (wy * wy + 0)) in *.
  replace (x1 - (x1 + t * wx)) with (- t * wx) by lra.
  replace (y1 - (y1 + t * wy)) with (- t * wy) by lra.
  replace (x3 - (x1 + t * wx)) with ((1 - t) * wx) by (unfold wx; lra).
  replace (y3 - (y1 + t * wy)) with ((1 - t) * wy) by (unfold wy; lra).
  replace (- t * wx * (- t * wx) + (- t * wy * (- t * wy) + 0))
    with ((t * t) * s) by (unfold s; lra).
  replace ((1 - t) * wx * ((1 - t) * wx) + ((1 - t) * wy * ((1 - t) * wy) + 0))
    with (((1 - t) * (1 - t)) * s) by (unfold s; lra).
  rewrite (sqrt_mult_alt (t * t) s), (sqrt_mult_alt ((1 - t) * (1 - t)) s) by nra.
  rewrite (sqrt_square t), (sqrt_square (1 - t)) by lra.
  rewrite (angle_of_exact_cosine _ _ (-1)).
  - by rewrite acos_minus_1, degrees_PI.
  - pose proof (sqrt_lt_R0 s Hs) as Hq.
    assert (0 < t * sqrt s * ((1 - t) * sqrt s))
      by (repeat apply Rmult_lt_0_compat; lra).
    lra.
  - replace (-1 * (t * sqrt s * ((1 - t) * sqrt s)))
      with (- (t * (1 - t)) * (sqrt s * sqrt s)) by ring.
    rewrite sqrt_sqrt by lra. unfold s. ring.
  - lra.
Qed.

Lemma calculate_angle_straight_witness :
  calculate_angle [0; 0; 0] [0 + 1 / 2 * (2 - 0); 0 + 1 / 2 * (0 - 0); 0] [2; 0; 0]
  = Fin 180.
Proof. apply calculate_angle_straight; [lra | left; lra]. Defined.

(** Two perpendicular arms of non-zero length make an angle of 90 degrees. *)
Theorem calculate_angle_right_angle (x1 y1 z1 x2 y2 z2 x3 y3 z3 : R) :
  (x1 - x2) * (x3 - x2) + (y1 - y2) * (y3 - y2) = 0 →
  x1 ≠ x2 ∨ y1 ≠ y2 → x3 ≠ x2 ∨ y3 ≠ y2 →
  calculate_angle [x1; y1; z1] [x2; y2; z2] [x3; y3; z3] = Fin 90.
Proof.
  intros Hdot H1 H3. rewrite calculate_angle_unfold.
  assert (0 < (x1 - x2) * (x1 - x2) + ((y1 - y2) * (y1 - y2) + 0)) as Hs1.
  { apply sum_squares_pos. destruct H1; [left | right]; lra. }
  assert (0 < (x3 - x2) * (x3 - x2) + ((y3 - y2) * (y3 - y2) + 0)) as Hs3.
  { apply sum_squares_pos. destruct H3; [left | right]; lra. }
  rewrite (angle_of_exact_cosine _ _ 0).
  - by rewrite acos_0, degrees_half_PI.
  - pose proof (sqrt_lt_R0 _ Hs1). pose proof (sqrt_lt_R0 _ Hs3).
    apply Rgt_not_eq, Rlt_gt. by apply Rmult_lt_0_compat.
  - lra.
  - lra.
Qed.

Lemma calculate_angle_right_angle_witness :
  calculate_angle [1; 0; 0] [0; 0; 0] [0; 1; 0] = Fin 90.
Proof. apply calculate_angle_right_angle; [lra | left; lra | right; lra]. Defined.

End AngleGeometry.

Section DistanceGeometry.
Import Num Analyzer.
Local Open Scope R_scope.

(** For a positive frame width the head alignment is the distance between
    the normalised x coordinates, whatever the width; it lies in [0, 1] when
    both coordinates do. *)
Theorem calculate_head_alignment_normalised (hx kx : R) (hrest krest : list R)
    (frame_width : Z) :
  (0 < frame_width)%Z →
  calculate_head_alignment (hx :: hrest) (kx :: krest) frame_width = Rabs (hx - kx)
  ∧ (0 <= hx <= 1 → 0 <= kx <= 1 →
     0 <= calculate_head_alignment (hx :: hrest) (kx :: krest) frame_width <= 1).
Proof.
  intros Hw. apply IZR_lt in Hw.
  assert (calculate_head_alignment (hx :: hrest) (kx :: krest) frame_width
          = Rabs (hx - kx)) as Heq.
  { unfold calculate_head_alignment, py_truediv. simpl.
    destruct (Req_dec_T (IZR frame_width) 0); [lra |]. simpl.
    replace (hx * IZR frame_width - kx * IZR frame_width)
      with ((hx - kx) * IZR frame_width) by ring.
    rewrite Rabs_mult, (Rabs_pos_eq (IZR frame_width)) by lra. field. lra. }
  split; [done |]. intros Hh Hk. rewrite Heq.
  split; [apply Rabs_pos |]. apply Rabs_le. lra.
Qed.

Lemma calculate_head_alignment_normalised_witness :
  calculate_head_alignment [1 / 2; 3 / 10; 0] [7 / 10; 7 / 10; 0] 640
  = Rabs (1 / 2 - 7 / 10)
  ∧ (0 <= 1 / 2 <= 1 → 0 <= 7 / 10 <= 1 →
     0 <= calculate_head_alignment [1 / 2; 3 / 10; 0] [7 / 10; 7 / 10; 0] 640 <= 1).
Proof. apply calculate_head_alignment_normalised. lia. Defined.

(** The head alignment falls back to 1.0, the largest distance, when a
    point has no coordinate or the frame width is 0. *)
Theorem calculate_head_alignment_fallback (head knee : list R) (frame_width : Z) :
  head = [] ∨ knee = [] ∨ frame_width = 0%Z →
  calculate_head_alignment head knee frame_width = 1.
Proof.
  intros Hcase. unfold calculate_head_alignment.
  destruct head as [| hx hrest]; [done |].
  destruct knee as [| kx krest]; [done |].
  destruct Hcase as [? | [? | ->]]; try done.
  unfold py_truediv. simpl. destruct (Req_dec_T 0 0) as [_ | H]; [done | lra].
Qed.

Lemma calculate_head_alignment_fallback_witness :
  calculate_head_alignment [1 / 2; 3 / 10; 0] [7 / 10; 7 / 10; 0] 0 = 1.
Proof. apply calculate_head_alignment_fallback. by right; right. Defined.

Lemma py_index_0_1_swap {A B} (a b : list A) (k : A → A → A → A → B) (d : B) :
  try_except (sx ← py_index a 0; hx ← py_index b 0;
              sy ← py_index a 1; hy ← py_index b 1; Ok (k sx hx sy hy)) d
  = try_except (hx ← py_index b 0; sx ← py_index a 0;
                hy ← py_index b 1; sy ← py_index a 1; Ok (k sx hx sy hy)) d.
Proof.
  destruct (py_index a 0), (py_index b 0); simpl; try done.
  destruct (py_index a 1), (py_index b 1); simpl; done.
Qed.

(** The spine lean does not depend on which end is called hip and which
    shoulder, whatever the two lists are. *)
Theorem calculate_spine_lean_symmetric (hip shoulder : list R) :
  calculate_spine_lean hip shoulder = calculate_spine_lean shoulder hip.
Proof.
  unfold calculate_spine_lean.
  rewrite (py_index_0_1_swap shoulder hip
             (fun sx hx sy hy =>
                Rabs (90 - degrees (math_atan2 (Rabs (sy - hy)) (Rabs (sx - hx))))) 0).
  destruct (py_index hip 0) as [hx |], (py_index shoulder 0) as [sx |]; simpl; try done.
  destruct (py_index hip 1) as [hy |], (py_index shoulder 1) as [sy |]; simpl; try done.
  by rewrite (Rabs_minus_sym sy hy), (Rabs_minus_sym sx hx).
Qed.

Lemma math_atan2_vertical (y : R) : 0 < y → math_atan2 y 0 = PI / 2.
Proof.
  intros Hy. unfold math_atan2.
  destruct (Rlt_dec 0 0); [lra |]. destruct (Rlt_dec 0 0); [lra |].
  destruct (Rlt_dec 0 y); [done | lra].
Qed.

Lemma math_atan2_horizontal (x : R) : 0 < x → math_atan2 0 x = 0.
Proof.
  intros Hx. unfold math_atan2. destruct (Rlt_dec 0 x); [| lra].
  unfold Rdiv. by rewrite Rmult_0_l, atan_0.
Qed.

(** An upright spine (shoulder straight above or below the hip) leans by 0
    degrees, a flat one (shoulder level with the hip) by 90. *)
Theorem calculate_spine_lean_upright_flat (hx hy sx sy : R) (hrest srest : list R) :
  (sx = hx → sy ≠ hy →
   calculate_spine_lean (hx :: hy :: hrest) (sx :: sy :: srest) = 0)
  ∧ (sy = hy → sx ≠ hx →
     calculate_spine_lean (hx :: hy :: hrest) (sx :: sy :: srest) = 90).
Proof.
  rewrite spine_lean_unfold. split.
  - intros -> Hne. rewrite Rminus_diag, Rabs_R0.
    rewrite math_atan2_vertical by (apply Rabs_pos_lt; lra).
    rewrite degrees_half_PI, Rminus_diag. apply Rabs_R0.
  - intros -> Hne. rewrite Rminus_diag, Rabs_R0.
    rewrite math_atan2_horizontal by (apply Rabs_pos_lt; lra).
    unfold degrees. rewrite Rmult_0_l, Rminus_0_r. apply Rabs_pos_eq. lra.
Qed.

(** The spine lean and the foot angle of the same pair of points add up to
    90 degrees: one is measured from the vertical, the other from the
    horizontal. *)
Theorem spine_lean_foot_angle_complementary (ax ay bx by_ : R) (arest brest : list R) :
  calculate_spine_lean (ax :: ay :: arest) (bx :: by_ :: brest)
  + calculate_foot_angle (ax :: ay :: arest) (bx :: by_ :: brest) = 90.
Proof.
  rewrite spine_lean_unfold.
  change (calculate_foot_angle (ax :: ay :: arest) (bx :: by_ :: brest))
    with (degrees (math_atan2 (Rabs (by_ - ay)) (Rabs (bx - ax)))).
  pose proof (quadrant_angle_range (by_ - ay) (bx - ax)) as Hq.
  rewrite Rabs_pos_eq by lra. lra.
Qed.

End DistanceGeometry.

(** * Further properties of the pose landmarks and the frame metrics *)

Section LandmarkFacts.
Import Num Analyzer.
Local Open Scope R_scope.



(** With fewer than 29 landmarks the extraction raises IndexError: the
    exception is not caught there. *)
Theorem extract_pose_landmarks_too_few (results : PoseResults)
    (landmarks : list Landmark) :
  pose_landmarks results = Some landmarks →
  (length landmarks < 29)%nat →
  extract_pose_landmarks results = Raise IndexError.
Proof.
  intros Hlm Hlen. unfold extract_pose_landmarks. rewrite Hlm.
  repeat (destruct landmarks as [| ? landmarks]; [reflexivity |]).
  simpl in Hlen. lia.
Qed.

Lemma extract_pose_landmarks_too_few_witness :
  extract_pose_landmarks
    {| pose_landmarks := Some [{| lm_x := 0; lm_y := 0; lm_z := 0 |}] |}
  = Raise IndexError.
Proof.
  apply (extract_pose_landmarks_too_few _ [{| lm_x := 0; lm_y := 0; lm_z := 0 |}]);
    [reflexivity | simpl; lia].
Defined.

Lemma spine_lean_bounds (hip shoulder : list R) :
  0 <= calculate_spine_lean hip shoulder <= 90.
Proof.
  unfold calculate_spine_lean.
  destruct (py_index shoulder 0) as [sx |]; simpl; [| lra].
  destruct (py_index hip 0) as [hx |]; simpl; [| lra].
  destruct (py_index shoulder 1) as [sy |]; simpl; [| lra].
  destruct (py_index hip 1) as [hy |]; simpl; [| lra].
  pose proof (quadrant_angle_range (sy - hy) (sx - hx)) as Hq.
  split; [apply Rabs_pos |]. apply Rabs_le. lra.
Qed.

Lemma foot_angle_bounds (ankle toe : list R) :
  0 <= calculate_foot_angle ankle toe <= 90.
Proof.
  unfold calculate_foot_angle.
  destruct (toe_offset ankle toe 0) as [dx |]; simpl; [| lra].
  destruct (toe_offset ankle toe 1) as [dy |]; simpl; [| lra].
  apply quadrant_angle_range.
Qed.

Lemma four_metrics_keys (a b c d : pyfloat) (f : string) :
  f ∈ metric_names
  ↔ is_Some ((<["foot_angle" := d]> (<["head_alignment" := c]>
              (<["spine_lean" := b]> (<["elbow_angle" := a]> ∅))) : gmap string pyfloat)
             !! f).
Proof.
  unfold metric_names. split.
  - intros Hf.
    repeat (apply elem_of_cons in Hf as [-> | Hf]); [..| by apply elem_of_nil in Hf];
      by simplify_map_eq.
  - intros Hsome. destruct (decide (f ∈ ["elbow_angle"; "spine_lean";
                                         "head_alignment"; "foot_angle"]))
      as [Hin | Hout]; [done |].
    rewrite !not_elem_of_cons in Hout. destruct_and!.
    rewrite !lookup_insert_ne, lookup_empty in Hsome by done.
    by destruct Hsome.
Qed.

(** The metrics of a frame always hold exactly the four fields; the spine
    lean and the foot angle lie in [0, 90], the elbow angle is NaN or lies
    in [0, 180]. *)
Theorem analyze_biomechanics_populated (pose_points : gmap string (list R))
    (frame_width : Z) :
  let metrics := analyze_biomechanics pose_points frame_width in
  (∀ f, f ∈ metric_names ↔ is_Some (metrics !! f))
  ∧ (∃ s, metrics !! "spine_lean" = Some (Fin s) ∧ 0 <= s <= 90)
  ∧ (∃ a, metrics !! "foot_angle" = Some (Fin a) ∧ 0 <= a <= 90)
  ∧ (∃ h, metrics !! "head_alignment" = Some (Fin h))
  ∧ (metrics !! "elbow_angle" = Some NaN
     ∨ ∃ a, metrics !! "elbow_angle" = Some (Fin a) ∧ 0 <= a <= 180).
Proof.
  cbv zeta. unfold analyze_biomechanics.
  assert (∀ f, f ∈ metric_names ↔ is_Some (fallback_metrics !! f)) as Hfb
    by apply four_metrics_keys.
  assert ((∀ f, f ∈ metric_names ↔ is_Some (fallback_metrics !! f))
          ∧ (∃ s, fallback_metrics !! "spine_lean" = Some (Fin s) ∧ 0 <= s <= 90)
          ∧ (∃ a, fallback_metrics !! "foot_angle" = Some (Fin a) ∧ 0 <= a <= 90)
          ∧ (∃ h, fallback_metrics !! "head_alignment" = Some (Fin h))
          ∧ (fallback_metrics !! "elbow_angle" = Some NaN
             ∨ ∃ a, fallback_metrics !! "elbow_angle" = Some (Fin a) ∧ 0 <= a <= 180))
    as Hfallback.
  { split; [done |]. split_and!.
    - exists 0. split; [reflexivity | lra].
    - exists 0. split; [reflexivity | lra].
    - by exists 1.
    - right. exists 0. split; [reflexivity | lra]. }
  destruct (py_getitem pose_points "left_shoulder") as [shoulder |]; simpl; [| done].
  destruct (py_getitem pose_points "left_elbow") as [elbow |]; simpl; [| done].
  destruct (py_getitem pose_points "left_wrist") as [wrist |]; simpl; [| done].
  destruct (py_getitem pose_points "left_hip") as [hip |]; simpl; [| done].
  destruct (py_getitem pose_points "left_knee") as [knee |]; simpl; [| done].
  destruct (py_getitem pose_points "left_ankle") as [ankle |]; simpl; [| done].
  destruct (py_getitem pose_points "nose") as [nose |]; simpl; [| done].
  split; [apply four_metrics_keys |]. split_and!.
  - eexists. split; [by simplify_map_eq | apply spine_lean_bounds].
  - eexists. split; [by simplify_map_eq | apply foot_angle_bounds].
  - eexists. by simplify_map_eq.
  - pose proof (calculate_angle_bounds shoulder elbow wrist) as Hb.
    destruct (calculate_angle shoulder elbow wrist) as [a |] eqn:Ha.
    + right. exists a. split; [by simplify_map_eq | done].
    + left. by simplify_map_eq.
Qed.

(** When one of the seven joints the metrics need is missing from the pose
    points, the frame gets the fallback metrics: angles 0, head alignment 1. *)
Theorem analyze_biomechanics_missing_joint (pose_points : gmap string (list R))
    (frame_width : Z) (joint : string) :
  joint ∈ ["left_shoulder"; "left_elbow"; "left_wrist"; "left_hip";
           "left_knee"; "left_ankle"; "nose"] →
  pose_points !! joint = None →
  analyze_biomechanics pose_points frame_width = fallback_metrics
  ∧ fallback_metrics !! "elbow_angle" = Some (Fin 0)
  ∧ fallback_metrics !! "spine_lean" = Some (Fin 0)
  ∧ fallback_metrics !! "head_alignment" = Some (Fin 1)
  ∧ fallback_metrics !! "foot_angle" = Some (Fin 0).
Proof.
  intros Hjoint Hmiss. split; [| by split_and!].
  unfold analyze_biomechanics, py_getitem.
  repeat (apply elem_of_cons in Hjoint as [-> | Hjoint]);
    [..| by apply elem_of_nil in Hjoint];
    rewrite ?Hmiss;
    repeat match goal with
           | |- context [pose_points !! ?k] =>
               destruct (pose_points !! k); simpl; try done
           end.
Qed.

Lemma analyze_biomechanics_missing_joint_witness :
  analyze_biomechanics ∅ 640 = fallback_metrics
  ∧ fallback_metrics !! "elbow_angle" = Some (Fin 0)
  ∧ fallback_metrics !! "spine_lean" = Some (Fin 0)
  ∧ fallback_metrics !! "head_alignment" = Some (Fin 1)
  ∧ fallback_metrics !! "foot_angle" = Some (Fin 0).
Proof.
  apply (analyze_biomechanics_missing_joint ∅ 640 "nose").
  - rewrite !elem_of_cons. auto 10.
  - apply lookup_empty.
Defined.

End LandmarkFacts.

(** * Further properties of the scoring *)

Section ScoreRangeFacts.
Import Num Analyzer.
Local Open Scope R_scope.

Lemma py_round_bounds (x : R) (a b : Z) :
  IZR a <= x <= IZR b → (a ≤ py_round x ≤ b)%Z.
Proof.
  intros [Ha Hb]. unfold py_round. destruct (Int_part_bounds x) as [Hlo Hhi].
  set (f := Int_part x) in *.
  assert (a ≤ f)%Z as Haf.
  { assert (IZR a < IZR (f + 1)) as H by (rewrite plus_IZR; lra).
    apply lt_IZR in H. lia. }
  assert (f ≤ b)%Z as Hfb by (apply le_IZR; lra).
  assert (1 / 2 <= x - IZR f → (f + 1 ≤ b)%Z) as Hup.
  { intros Hd. assert (IZR f < IZR b) as H by lra. apply lt_IZR in H. lia. }
  destruct (Rlt_dec (x - IZR f) (1 / 2)); [lia |].
  assert (f + 1 ≤ b)%Z by (apply Hup; lra).
  destruct (Rlt_dec (1 / 2) (x - IZR f)); [lia |].
  destruct (Z.even f); lia.
Qed.

Lemma py_round_mono (x y : R) : x <= y → (py_round x ≤ py_round y)%Z.
Proof.
  intros Hxy. unfold py_round.
  destruct (Int_part_bounds x) as [Hxl Hxh]. destruct (Int_part_bounds y) as [Hyl Hyh].
  set (fx := Int_part x) in *. set (fy := Int_part y) in *.
  assert (fx ≤ fy)%Z as Hf.
  { assert (IZR fx < IZR (fy + 1)) as H by (rewrite plus_IZR; lra).
    apply lt_IZR in H. lia. }
  destruct (decide (fx = fy)) as [Heq | Hne].
  - rewrite <- Heq in *.
    destruct (Rlt_dec (x - IZR fx) (1 / 2)), (Rlt_dec (y - IZR fx) (1 / 2));
      try lia; try lra;
      destruct (Rlt_dec (1 / 2) (x - IZR fx)), (Rlt_dec (1 / 2) (y - IZR fx));
      try lia; try lra; destruct (Z.even fx); lia.
  - assert (fx + 1 ≤ fy)%Z by lia.
    destruct (Rlt_dec (x - IZR fx) (1 / 2)), (Rlt_dec (y - IZR fy) (1 / 2));
      try lia;
      destruct (Rlt_dec (1 / 2) (x - IZR fx)); try lia;
      destruct (Rlt_dec (1 / 2) (y - IZR fy)); try lia;
      destruct (Z.even fx), (Z.even fy); lia.
Qed.

Lemma np_random_random_valid (g : RandomState) :
  valid_rng g → valid_rng (np_random_random g).2.
Proof. intros Hg n. apply Hg. Qed.

Lemma score_metric_in_range (value : R) (th : ThresholdBand) (g : RandomState) :
  valid_rng g →
  (1 ≤ (_score_metric value th g).1 ≤ 10)%Z
  ∧ valid_rng (_score_metric value th g).2.
Proof.
  intros Hg. unfold _score_metric.
  pose proof (scaled_draw_range g 2 Hg ltac:(lia)) as H2.
  pose proof (scaled_draw_range g 3 Hg ltac:(lia)) as H3.
  destruct (Req_dec_T value 0); [split; [simpl; lia | done] |].
  destruct (within (excellent th) value).
  { simpl in *. split; [lia | by apply np_random_random_valid]. }
  destruct (within (good th) value).
  { simpl in *. split; [lia | by apply np_random_random_valid]. }
  simpl. split; [| done].
  set (d := Rabs _ / 10).
  assert (0 <= d) as Hd.
  { unfold d. match goal with |- 0 <= Rabs ?x / 10 => pose proof (Rabs_pos x) end. lra. }
  pose proof (py_int_range d (Int_part d + 1)) as Hr.
  rewrite py_int_nonneg in * by done.
  destruct (Int_part_bounds d) as [Hlo Hhi].
  assert (0 ≤ Int_part d)%Z.
  { assert (IZR (-1) < IZR (Int_part d)) as H by (simpl; lra).
    apply lt_IZR in H. lia. }
  lia.
Qed.

(** A score lies between 1 and 10, and scoring draws at most one random
    number from the generator. *)
Theorem score_metric_range (value : R) (th : ThresholdBand) (g : RandomState) :
  valid_rng g →
  let '(score, g') := _score_metric value th g in
  (1 ≤ score ≤ 10)%Z
  ∧ draws g' = draws g
  ∧ (cursor g' = cursor g ∨ cursor g' = S (cursor g)).
Proof.
  intros Hg. pose proof (score_metric_in_range value th g Hg) as [Hr _].
  destruct (_score_metric value th g) as [score g'] eqn:Hs. simpl in Hr.
  split; [done |]. unfold _score_metric in Hs.
  destruct (Req_dec_T value 0); [injection Hs as <- <-; auto |].
  destruct (within (excellent th) value); [injection Hs as <- <-; auto |].
  destruct (within (good th) value); injection Hs as <- <-; auto.
Qed.

Lemma score_metric_range_witness :
  let '(score, g') :=
    _score_metric 110 thresholds_elbow_angle (Samples.constant_rng (1 / 2)) in
  (1 ≤ score ≤ 10)%Z
  ∧ draws g' = draws (Samples.constant_rng (1 / 2))
  ∧ (cursor g' = cursor (Samples.constant_rng (1 / 2))
     ∨ cursor g' = S (cursor (Samples.constant_rng (1 / 2)))).
Proof.
  apply (score_metric_range 110 thresholds_elbow_angle (Samples.constant_rng (1 / 2))).
  apply constant_rng_valid. lra.
Defined.

(** Outside both bands a non-zero value scores at most 6, without any
    random draw, and exactly 1 once it is 50 or more away from the centre
    of the excellent range. *)
Theorem score_metric_out_of_band (value : R) (th : ThresholdBand) (g : RandomState) :
  value ≠ 0 →
  ¬ (fst (excellent th) <= value <= snd (excellent th)) →
  ¬ (fst (good th) <= value <= snd (good th)) →
  let center := (fst (excellent th) + snd (excellent th)) / 2 in
  (1 ≤ (_score_metric value th g).1 ≤ 6)%Z
  ∧ (_score_metric value th g).2 = g
  ∧ (50 <= Rabs (value - center) → (_score_metric value th g).1 = 1%Z).
Proof.
  intros Hnz Hexc Hgood. cbv zeta. unfold _score_metric.
  destruct (Req_dec_T value 0); [done |].
  apply within_false in Hexc. apply within_false in Hgood.
  rewrite Hexc, Hgood. simpl.
  set (d := Rabs _ / 10).
  assert (0 <= d) as Hd.
  { unfold d. match goal with |- 0 <= Rabs ?x / 10 => pose proof (Rabs_pos x) end. lra. }
  rewrite py_int_nonneg by done.
  destruct (Int_part_bounds d) as [Hlo Hhi].
  assert (0 ≤ Int_part d)%Z.
  { assert (IZR (-1) < IZR (Int_part d)) as H by (simpl; lra).
    apply lt_IZR in H. lia. }
  split; [lia |]. split; [done |].
  intros Hfar. assert (5 <= d) as H5 by (unfold d; lra).
  assert (IZR 4 < IZR (Int_part d)) as H4 by (simpl; lra).
  apply lt_IZR in H4. lia.
Qed.

Lemma score_metric_out_of_band_witness :
  let th := thresholds_elbow_angle in
  let g := Samples.constant_rng (1 / 2) in
  let center := (fst (excellent th) + snd (excellent th)) / 2 in
  (1 ≤ (_score_metric 10 th g).1 ≤ 6)%Z
  ∧ (_score_metric 10 th g).2 = g
  ∧ (50 <= Rabs (10 - center) → (_score_metric 10 th g).1 = 1%Z).
Proof.
  apply (score_metric_out_of_band 10 thresholds_elbow_angle
           (Samples.constant_rng (1 / 2))); simpl; lra.
Defined.

End ScoreRangeFacts.

(** * Further properties of the evaluation *)

Section EvaluationRangeFacts.
Import Num Analyzer.
Local Open Scope R_scope.

Lemma Rsum_bounds (l : list R) (lo hi : R) :
  Forall (fun v => lo <= v <= hi) l →
  lo * INR (length l) <= Rsum l <= hi * INR (length l).
Proof.
  induction 1 as [| v l Hv _ IH].
  - simpl. lra.
  - change (Rsum (v :: l)) with (v + Rsum l).
    change (length (v :: l)) with (S (length l)). rewrite S_INR. lra.
Qed.

Lemma np_mean_bounds (l : list R) (lo hi : R) :
  l ≠ [] → Forall (fun v => lo <= v <= hi) l → lo <= np_mean l <= hi.
Proof.
  intros Hne Hall. pose proof (Rsum_bounds l lo hi Hall) as [Hlo Hhi].
  assert (0 < INR (length l)) as Hlen.
  { apply lt_0_INR. destruct l; [done | simpl; lia]. }
  unfold np_mean.
  assert (Rsum l / INR (length l) * INR (length l) = Rsum l) as Hdiv by (field; lra).
  split; apply Rmult_le_reg_r with (INR (length l)); try done; lra.
Qed.

(** The mean of the values of a non-empty dict of scores, rounded. *)
Lemma rounded_mean_of_scores (m : gmap string Z) (lo hi : Z) :
  m ≠ ∅ → map_Forall (fun _ v => (lo ≤ v ≤ hi)%Z) m →
  (lo ≤ py_round (np_mean (IZR <$> (map_to_list m).*2)) ≤ hi)%Z.
Proof.
  intros Hne Hall. apply py_round_bounds. apply np_mean_bounds.
  - intros Hnil. apply fmap_nil_inv, fmap_nil_inv in Hnil.
    by apply map_to_list_empty_iff in Hnil.
  - apply map_Forall_to_list in Hall.
    rewrite Forall_fmap, Forall_fmap.
    eapply Forall_impl; [exact Hall |].
    intros [k v] [H1 H2]. simpl in *. split; by apply IZR_le.
Qed.

(** The scores of a non-empty sequence, one call after the other. *)
Lemma evaluate_technique_scores records (g : RandomState) :
  records ≠ [] →
  let a := average_metrics records in
  let r1 := _score_metric (a !!! "foot_angle") thresholds_foot_angle g in
  let head := py_round (py_max 1 (py_min 10 (10 - a !!! "head_alignment" * 10))) in
  let r2 := _score_metric (a !!! "elbow_angle") thresholds_elbow_angle r1.2 in
  let r3 := _score_metric (a !!! "spine_lean") thresholds_spine_lean r2.2 in
  let four : gmap string Z :=
    <["balance" := r3.1]> (<["swing_control" := r2.1]>
    (<["head_position" := head]> (<["footwork" := r1.1]> ∅))) in
  scores (evaluate_technique records g).1
  = <["follow_through" := py_round (np_mean (IZR <$> (map_to_list four).*2))]> four
  ∧ (evaluate_technique records g).2 = r3.2.
Proof.
  intros Hne. destruct records as [| m records]; [done |].
  cbv zeta. unfold evaluate_technique.
  destruct (_score_metric _ thresholds_foot_angle g) as [s1 g1]. simpl.
  destruct (_score_metric _ thresholds_elbow_angle g1) as [s2 g2]. simpl.
  destruct (_score_metric _ thresholds_spine_lean g2) as [s3 g3]. simpl.
  done.
Qed.

Lemma five_keys {A} (a b c d e : A) (k : string) :
  k ∈ ["footwork"; "head_position"; "swing_control"; "balance"; "follow_through"]
  ↔ is_Some ((<["follow_through" := e]> (<["balance" := d]>
              (<["swing_control" := c]> (<["head_position" := b]>
              (<["footwork" := a]> ∅)))) : gmap string A) !! k).
Proof.
  split.
  - intros Hk.
    repeat (apply elem_of_cons in Hk as [-> | Hk]); [..| by apply elem_of_nil in Hk];
      by simplify_map_eq.
  - intros Hsome.
    destruct (decide (k ∈ ["footwork"; "head_position"; "swing_control";
                           "balance"; "follow_through"])) as [Hin | Hout]; [done |].
    rewrite !not_elem_of_cons in Hout. destruct_and!.
    rewrite !lookup_insert_ne, lookup_empty in Hsome by done.
    by destruct Hsome.
Qed.

Lemma five_values {A} (P : A → Prop) (a b c d e : A) (k : string) (v : A) :
  P a → P b → P c → P d → P e →
  (<["follow_through" := e]> (<["balance" := d]>
   (<["swing_control" := c]> (<["head_position" := b]>
   (<["footwork" := a]> ∅)))) : gmap string A) !! k = Some v →
  P v.
Proof.
  intros Ha Hb Hc Hd He Hk.
  repeat (apply lookup_insert_Some in Hk as [[_ <-] | [_ Hk]]; [done |]).
  by rewrite lookup_empty in Hk.
Qed.

(** Whatever the metrics are, the evaluation scores exactly the five
    categories, each with an integer between 1 and 10. *)
Theorem evaluate_technique_scores_range records (g : RandomState) :
  valid_rng g →
  let ev := (evaluate_technique records g).1 in
  (∀ c, c ∈ ["footwork"; "head_position"; "swing_control"; "balance";
             "follow_through"] ↔ is_Some (scores ev !! c))
  ∧ (∀ c s, scores ev !! c = Some s → (1 ≤ s ≤ 10)%Z)
  ∧ valid_rng (evaluate_technique records g).2.
Proof.
  intros Hg. cbv zeta. destruct records as [| m records].
  { split; [intros c; apply five_keys |]. split; [| done].
    intros c s. apply (five_values (fun s => (1 ≤ s ≤ 10)%Z)); lia. }
  destruct (evaluate_technique_scores (m :: records) g ltac:(done)) as [Hs Hg'].
  cbv zeta in Hs, Hg'. rewrite Hs, Hg'.
  set (a := average_metrics (m :: records)) in *.
  destruct (score_metric_in_range (a !!! "foot_angle") thresholds_foot_angle g Hg)
    as [H1 Hg1].
  set (r1 := _score_metric (a !!! "foot_angle") thresholds_foot_angle g) in *.
  destruct (score_metric_in_range (a !!! "elbow_angle") thresholds_elbow_angle _ Hg1)
    as [H2 Hg2].
  set (r2 := _score_metric (a !!! "elbow_angle") thresholds_elbow_angle r1.2) in *.
  destruct (score_metric_in_range (a !!! "spine_lean") thresholds_spine_lean _ Hg2)
    as [H3 Hg3].
  set (r3 := _score_metric (a !!! "spine_lean") thresholds_spine_lean r2.2) in *.
  assert (1 ≤ py_round (py_max 1 (py_min 10 (10 - a !!! "head_alignment" * 10))) ≤ 10)%Z
    as Hh.
  { apply py_round_bounds. rewrite py_max_Rmax, py_min_Rmin.
    split; [apply Rmax_l |]. apply Rmax_lub; [lra | apply Rmin_l]. }
  set (head := py_round _) in *.
  set (four := <["balance" := r3.1]> _).
  assert (1 ≤ py_round (np_mean (IZR <$> (map_to_list four).*2)) ≤ 10)%Z as Hf.
  { apply rounded_mean_of_scores.
    - apply insert_non_empty.
    - unfold four. repeat (apply map_Forall_insert_2; [done |]).
      apply map_Forall_empty. }
  split; [intros c; apply five_keys |]. split; [| done].
  intros c s. by apply (five_values (fun s => (1 ≤ s ≤ 10)%Z)).
Qed.

Lemma evaluate_technique_scores_range_witness :
  let ev := (evaluate_technique [Samples.head_only_frame (1 / 2)]
               (Samples.constant_rng (1 / 2))).1 in
  (∀ c, c ∈ ["footwork"; "head_position"; "swing_control"; "balance";
             "follow_through"] ↔ is_Some (scores ev !! c))
  ∧ (∀ c s, scores ev !! c = Some s → (1 ≤ s ≤ 10)%Z)
  ∧ valid_rng (evaluate_technique [Samples.head_only_frame (1 / 2)]
                 (Samples.constant_rng (1 / 2))).2.
Proof.
  apply (evaluate_technique_scores_range [Samples.head_only_frame (1 / 2)]
           (Samples.constant_rng (1 / 2))).
  apply constant_rng_valid. lra.
Defined.

End EvaluationRangeFacts.

Section AggregationFacts.
Import Num Analyzer.
Local Open Scope R_scope.

Lemma sample_None_gt0 (metric : string) (m : gmap string pyfloat) :
  sample metric m = None ↔ gt0 (dict_get m metric) = false.
Proof.
  unfold sample. destruct (dict_get m metric) as [x |]; [| done].
  by destruct (gt0 (Fin x)).
Qed.

Lemma sample_Some_pos (metric : string) (m : gmap string pyfloat) (x : R) :
  sample metric m = Some x → 0 < x.
Proof.
  unfold sample. destruct (dict_get m metric) as [y |]; [| done].
  simpl. destruct (Rlt_dec 0 y); [| done]. by intros [= <-].
Qed.

Lemma omap_sample_positive (metric : string) records :
  Forall (fun v => 0 < v) (omap (sample metric) records).
Proof.
  induction records as [| m records IH]; [constructor |].
  cbn. destruct (sample metric m) as [x |] eqn:Hs; [| done].
  constructor; [by eapply sample_Some_pos | done].
Qed.

Lemma omap_sample_nil (metric : string) records :
  omap (sample metric) records = []
  ↔ ∀ m, m ∈ records → gt0 (dict_get m metric) = false.
Proof.
  induction records as [| m records IH].
  - split; [| done]. intros _ m Hm. by apply elem_of_nil in Hm.
  - cbn. destruct (sample metric m) as [x |] eqn:Hs.
    + split; [done |]. intros Hall.
      assert (sample metric m = None) as Hn
        by (apply sample_None_gt0, Hall; left).
      congruence.
    + rewrite IH. apply sample_None_gt0 in Hs. split.
      * intros Hall m' [-> | Hm']%elem_of_cons; [done | by apply Hall].
      * intros Hall m' Hm'. apply Hall. by right.
Qed.

Lemma Rsum_pos (l : list R) : l ≠ [] → Forall (fun v => 0 < v) l → 0 < Rsum l.
Proof.
  intros Hne Hall. induction Hall as [| v l Hv Hall IH]; [done |].
  change (0 < v + Rsum l). destruct l as [| w l].
  - simpl. lra.
  - assert (0 < Rsum (w :: l)) by (by apply IH). lra.
Qed.

(** The average of a metric is never negative, and it is 0 exactly when no
    record has a value greater than 0 for it: the zero that scores 1 means
    that there was no sample. *)
Theorem average_zero_iff_no_sample (metric : string)
    (records : list (gmap string pyfloat)) :
  0 <= average metric records
  ∧ (average metric records = 0
     ↔ ∀ m, m ∈ records → gt0 (dict_get m metric) = false).
Proof.
  rewrite <- omap_sample_nil. unfold average.
  pose proof (omap_sample_positive metric records) as Hpos.
  destruct (omap (sample metric) records) as [| v vs] eqn:Hvs.
  - split; [lra | done].
  - assert (0 < np_mean (v :: vs)) as Hmean.
    { unfold np_mean. apply Rdiv_lt_0_compat.
      - by apply Rsum_pos.
      - apply lt_0_INR. simpl. lia. }
    split; [lra |]. split; [lra | done].
Qed.

End AggregationFacts.

Section FeedbackFacts.
Import Num Analyzer.
Local Open Scope R_scope.

(** The cut-offs written in the feedback functions are the good ranges of
    the thresholds that score the same metric: the affirming line is given
    exactly inside the good range, bounds included. *)
Theorem feedback_agrees_with_good_band (a : R) :
  (within (good thresholds_foot_angle) a = true
   ↔ _get_footwork_feedback a
     = ["Good foot positioning towards the target";
        "Focus on balanced weight transfer during the shot"])
  ∧ (within (good thresholds_elbow_angle) a = true
     ↔ _get_swing_feedback a
       = ["Good elbow positioning for controlled swing";
          "Maintain smooth acceleration through the ball"])
  ∧ (within (good thresholds_spine_lean) a = true
     ↔ _get_balance_feedback a
       = ["Good spine angle for balanced shot execution"]).
Proof.
  rewrite !within_true.
  unfold _get_footwork_feedback, _get_swing_feedback, _get_balance_feedback.
  simpl. split_and!.
  - destruct (Rlt_dec a 15); [split; [lra | done] |].
    destruct (Rlt_dec 45 a); [split; [lra | done] |]. split; [done | lra].
  - destruct (Rlt_dec a 90); [split; [lra | done] |].
    destruct (Rlt_dec 135 a); [split; [lra | done] |]. split; [done | lra].
  - destruct (Rlt_dec a 10); [split; [lra | done] |].
    destruct (Rlt_dec 30 a); [split; [lra | done] |]. split; [done | lra].
Qed.

Lemma Rsum_replicate (n : nat) (x : R) : Rsum (replicate n x) = INR n * x.
Proof.
  induction n as [| n IH]; [simpl; lra |].
  change (Rsum (replicate (S n) x)) with (x + Rsum (replicate n x)).
  rewrite IH, S_INR. lra.
Qed.

Lemma omap_replicate_None {A B} (f : A → option B) (n : nat) (x : A) :
  f x = None → omap f (replicate n x) = [].
Proof. intros Hf. induction n as [| n IH]; [done |]. cbn. by rewrite Hf. Qed.

Lemma omap_replicate_Some {A B} (f : A → option B) (n : nat) (x : A) (y : B) :
  f x = Some y → omap f (replicate n x) = replicate n y.
Proof.
  intros Hf. induction n as [| n IH]; [done |]. cbn. rewrite Hf. by rewrite IH.
Qed.

Lemma sample_fallback_angle (metric : string) :
  metric ∈ ["elbow_angle"; "spine_lean"; "foot_angle"] →
  sample metric fallback_metrics = None.
Proof.
  intros Hm. apply sample_None_gt0.
  repeat (apply elem_of_cons in Hm as [-> | Hm]); [..| by apply elem_of_nil in Hm];
    unfold dict_get, fallback_metrics; simplify_map_eq; simpl;
    destruct (Rlt_dec 0 0); done || lra.
Qed.

Lemma sample_fallback_head : sample "head_alignment" fallback_metrics = Some 1.
Proof.
  unfold sample, dict_get, fallback_metrics. simplify_map_eq. simpl.
  destruct (Rlt_dec 0 1); [done | lra].
Qed.

Lemma average_fallback_angle (metric : string) (n : nat) :
  metric ∈ ["elbow_angle"; "spine_lean"; "foot_angle"] →
  average metric (replicate n fallback_metrics) = 0.
Proof.
  intros Hm. unfold average.
  by rewrite (omap_replicate_None _ _ _ (sample_fallback_angle _ Hm)).
Qed.

Lemma average_fallback_head (n : nat) :
  average "head_alignment" (replicate (S n) fallback_metrics) = 1.
Proof.
  unfold average. rewrite (omap_replicate_Some _ _ _ _ sample_fallback_head).
  change (replicate (S n) 1) with (1 :: replicate n 1).
  unfold np_mean. change (1 :: replicate n 1) with (replicate (S n) 1).
  rewrite Rsum_replicate, length_replicate. field.
  apply not_0_INR. lia.
Qed.

Lemma average_metrics_total (records : list (gmap string pyfloat)) (metric : string) :
  metric ∈ metric_names →
  average_metrics records !!! metric = average metric records.
Proof.
  intros Hm. by rewrite lookup_total_alt, (average_metrics_lookup _ _ Hm).
Qed.

Lemma score_metric_zero (th : ThresholdBand) (g : RandomState) :
  _score_metric 0 th g = (1%Z, g).
Proof. unfold _score_metric. destruct (Req_dec_T 0 0) as [_ | H]; [done | lra]. Qed.

(** When every frame got the fallback metrics (a joint was missing each
    time), all five scores are 1, not the neutral 5 of the empty sequence,
    and no random number is drawn. *)
Theorem evaluate_technique_all_fallback (n : nat) (g : RandomState) :
  let run := evaluate_technique (replicate (S n) fallback_metrics) g in
  (∀ c, c ∈ ["footwork"; "head_position"; "swing_control"; "balance";
             "follow_through"] → scores run.1 !! c = Some 1%Z)
  ∧ metrics_summary run.1 !! "head_alignment" = Some 1
  ∧ run.2 = g.
Proof.
  cbv zeta.
  destruct (evaluate_technique_scores (replicate (S n) fallback_metrics) g
              ltac:(done)) as [Hs Hg].
  cbv zeta in Hs, Hg. rewrite Hs, Hg.
  rewrite evaluate_technique_summary by done.
  rewrite !average_metrics_total
    by (unfold metric_names; rewrite !elem_of_cons; auto 10).
  rewrite !average_fallback_angle by (rewrite !elem_of_cons; auto 10).
  rewrite average_fallback_head, !score_metric_zero. cbn [fst snd].
  replace (10 - 1 * 10) with 0 by lra.
  rewrite py_max_Rmax, py_min_Rmin, Rmin_right, Rmax_left by lra.
  rewrite py_round_IZR.
  set (four := <["balance" := 1%Z]> _).
  assert (py_round (np_mean (IZR <$> (map_to_list four).*2)) = 1%Z) as ->.
  { pose proof (rounded_mean_of_scores four 1 1) as H.
    assert (1 ≤ py_round (np_mean (IZR <$> (map_to_list four).*2)) ≤ 1)%Z; [| lia].
    apply H.
    - apply insert_non_empty.
    - unfold four. repeat (apply map_Forall_insert_2; [done |]).
      apply map_Forall_empty. }
  split_and!.
  - intros c Hc.
    repeat (apply elem_of_cons in Hc as [-> | Hc]); [..| by apply elem_of_nil in Hc];
      by simplify_map_eq.
  - rewrite average_metrics_lookup
      by (unfold metric_names; rewrite !elem_of_cons; auto 10).
    by rewrite average_fallback_head.
  - done.
Qed.

(** The closer the head is to the knee on average, the higher the head
    position score: a smaller aggregate never scores lower. *)
Theorem head_position_score_antitone records records' (g g' : RandomState)
    (a a' : R) :
  records ≠ [] → records' ≠ [] →
  metrics_summary (evaluate_technique records g).1 !! "head_alignment" = Some a →
  metrics_summary (evaluate_technique records' g').1 !! "head_alignment" = Some a' →
  a <= a' →
  ∃ s s', scores (evaluate_technique records g).1 !! "head_position" = Some s
          ∧ scores (evaluate_technique records' g').1 !! "head_position" = Some s'
          ∧ (s' ≤ s)%Z.
Proof.
  intros Hne Hne' Ha Ha' Hle.
  rewrite evaluate_technique_summary in Ha, Ha' by done.
  rewrite !evaluate_technique_head_score by done.
  rewrite !lookup_total_alt, Ha, Ha'. simpl.
  eexists _, _. split; [done |]. split; [done |].
  apply py_round_mono. rewrite !py_max_Rmax, !py_min_Rmin.
  apply Rmax_lub; [apply Rmax_l |].
  etransitivity; [| apply Rmax_r].
  apply Rmin_glb; [apply Rmin_l |].
  etransitivity; [apply Rmin_r |]. lra.
Qed.

Lemma head_position_score_antitone_witness :
  ∃ s s',
    scores (evaluate_technique [Samples.head_only_frame (1 / 4)]
              (Samples.constant_rng (1 / 2))).1 !! "head_position" = Some s
    ∧ scores (evaluate_technique [Samples.head_only_frame (1 / 2)]
                (Samples.constant_rng (1 / 2))).1 !! "head_position" = Some s'
    ∧ (s' ≤ s)%Z.
Proof.
  apply (head_position_score_antitone
           [Samples.head_only_frame (1 / 4)] [Samples.head_only_frame (1 / 2)]
           (Samples.constant_rng (1 / 2)) (Samples.constant_rng (1 / 2))
           (average "head_alignment" [Samples.head_only_frame (1 / 4)])
           (average "head_alignment" [Samples.head_only_frame (1 / 2)])).
  - discriminate.
  - discriminate.
  - rewrite evaluate_technique_summary by discriminate.
    apply average_metrics_lookup. unfold metric_names. rewrite !elem_of_cons. auto.
  - rewrite evaluate_technique_summary by discriminate.
    apply average_metrics_lookup. unfold metric_names. rewrite !elem_of_cons. auto.
  - unfold average, Samples.head_only_frame.
    assert (∀ x, 0 < x →
              sample "head_alignment" (<["head_alignment" := Fin x]> fallback_metrics)
              = Some x) as Hs.
    { intros x Hx. apply sample_positive; [| done].
      unfold dict_get. by rewrite lookup_insert_eq. }
    cbn. rewrite !Hs by lra. unfold np_mean. simpl. lra.
Defined.

End FeedbackFacts.

(** * Further properties of the analysis of a video file *)

Section AnalysisEffects.
Import Num Analyzer.



Lemma frame_loop_raising_frame (fs : list (result PoseResults)) (width : Z)
    (acc : list (gmap string pyfloat)) (n : Z) (e : exn) :
  Raise e ∈ fs → ∃ e', frame_loop fs width acc n = Raise e'.
Proof.
  intros Hin. revert acc n.
  induction fs as [| f fs IH]; intros acc n; [by apply elem_of_nil in Hin |].
  apply elem_of_cons in Hin as [<- | Hin]; [by eexists |].
  simpl. destruct f as [results | e0]; simpl; [| by eexists].
  destruct (pose_landmarks results) as [lms |]; simpl; [| by apply IH].
  destruct (extract_pose_landmarks results) as [pts | e0]; simpl; [| by eexists].
  destruct (decide (size pts = 0%nat)); simpl; by apply IH.
Qed.

End AnalysisEffects.

(** * Further properties of the job runner *)

Section RunnerEffects.
Import Num Analyzer Spec Server.

Lemma handle_failure_others fl id path up (e : exn) (st : ServerState) id' :
  id' ≠ id →
  analysis_results (handle_failure fl id path up e st).2 !! id'
  = analysis_results st !! id'.
Proof.
  intros Hne. unfold handle_failure, py_getitem.
  destruct (analysis_results st !! id) as [r |]; simpl; [| done].
  destruct (up && bool_decide _); simpl; [| by rewrite lookup_insert_ne].
  destruct (remove_error fl); simpl; by rewrite lookup_insert_ne.
Qed.

Lemma handle_failure_documents fl id path up (e : exn) (st : ServerState) :
  cricket_analyses (handle_failure fl id path up e st).2 = cricket_analyses st.
Proof.
  unfold handle_failure, py_getitem.
  destruct (analysis_results st !! id) as [r |]; simpl; [| done].
  destruct (up && bool_decide _); simpl; [| done].
  by destruct (remove_error fl).
Qed.

(** One run of the runner, on a job that exists, in terms of how its
    analysis and its insert end. *)
Lemma process_video_analysis_cases (fl : Faults) (id path : string) (up : bool)
    (st : ServerState) (r : JobRecord) :
  analysis_results st !! id = Some r →
  let a := analyze_video_file OUTPUT_DIR path (world st) in
  let st1 :=
    set_world a.2
      (set_analysis_results (<[id := set_status processing r]> (analysis_results st)) st) in
  let run := process_video_analysis fl id path up st in
  match a.1 with
  | Raise e => run = handle_failure fl id path up e st1
  | Ok res =>
      let r2 := update_completed (utcnow st) res (set_status processing r) in
      let st2 := set_analysis_results (<[id := r2]> (analysis_results st1)) st1 in
      match insert_error fl with
      | Some e => run = handle_failure fl id path up e st2
      | None =>
          run = (Ok (),
                 set_cricket_analyses
                   (cricket_analyses st ++
                    [{| doc_analysis_id := id;
                        doc_video_source := if up then "uploaded" else "url";
                        doc_result := r2;
                        doc_created_at := created_at r |}])%list st2)
      end
  end.
Proof.
  intros Hr. cbv zeta. unfold process_video_analysis.
  rewrite (begin_processing_found _ _ _ Hr). cbn [world set_analysis_results].
  destruct (analyze_video_file OUTPUT_DIR path (world st)) as [[res | e] w];
    cbn [fst snd]; [| done].
  set (st1 := set_world w _).
  assert (analysis_results st1 !! id = Some (set_status processing r)) as Hr1.
  { unfold st1. simpl. apply lookup_insert_eq. }
  rewrite (store_result_found _ _ _ _ Hr1).
  set (st2 := set_analysis_results _ st1).
  unfold insert_analysis, py_getitem.
  assert (analysis_results st2 !! id
          = Some (update_completed (utcnow st1) res (set_status processing r))) as ->.
  { unfold st2. simpl. apply lookup_insert_eq. }
  simpl. by destruct (insert_error fl).
Qed.

(** A run on a job that exists never raises: it ends with the job completed
    or failed and its completion time set, keeps what identifies the job,
    and leaves every other job as it was. *)
Theorem process_video_analysis_terminal (fl : Faults) (id path : string)
    (up : bool) (st : ServerState) (r : JobRecord) :
  analysis_results st !! id = Some r →
  let run := process_video_analysis fl id path up st in
  run.1 = Ok ()
  ∧ (∃ r', analysis_results run.2 !! id = Some r'
           ∧ (status r' = completed ∨ status r' = failed)
           ∧ completed_at r' = Some (utcnow st)
           ∧ analysis_id r' = analysis_id r
           ∧ created_at r' = created_at r
           ∧ video_source r' = video_source r
           ∧ filename r' = filename r
           ∧ video_url r' = video_url r)
  ∧ (∀ id', id' ≠ id →
       analysis_results run.2 !! id' = analysis_results st !! id').
Proof.
  intros Hr. cbv zeta.
  pose proof (process_video_analysis_cases fl id path up st r Hr) as Hc.
  cbv zeta in Hc.
  set (st1 := set_world _ _) in Hc.
  assert (analysis_results st1 !! id = Some (set_status processing r)) as Hr1.
  { unfold st1. simpl. apply lookup_insert_eq. }
  assert (∀ id', id' ≠ id → analysis_results st1 !! id' = analysis_results st !! id')
    as Ho1.
  { intros id' Hne. unfold st1. simpl. by rewrite lookup_insert_ne. }
  destruct (analyze_video_file OUTPUT_DIR path (world st)).1 as [res | e].
  - set (st2 := set_analysis_results _ st1) in Hc.
    assert (analysis_results st2 !! id
            = Some (update_completed (utcnow st) res (set_status processing r)))
      as Hr2.
    { unfold st2. simpl. apply lookup_insert_eq. }
    assert (∀ id', id' ≠ id → analysis_results st2 !! id' = analysis_results st !! id')
      as Ho2.
    { intros id' Hne. unfold st2. simpl. rewrite lookup_insert_ne by done.
      by apply Ho1. }
    destruct (insert_error fl) as [e |]; rewrite Hc.
    + destruct (handle_failure_found fl id path up e st2 _ Hr2) as (Hok & Hrec & _).
      split; [done |]. split.
      * eexists. split; [exact Hrec |]. simpl. split_and!; auto.
      * intros id' Hne. rewrite handle_failure_others by done. by apply Ho2.
    + split; [done |]. split.
      * eexists. split; [exact Hr2 |]. simpl. split_and!; auto.
      * intros id' Hne. simpl. by apply Ho2.
  - rewrite Hc.
    destruct (handle_failure_found fl id path up e st1 _ Hr1) as (Hok & Hrec & _).
    split; [done |]. split.
    + eexists. split; [exact Hrec |]. simpl. split_and!; auto.
    + intros id' Hne. rewrite handle_failure_others by done. by apply Ho1.
Qed.

Lemma process_video_analysis_terminal_witness :
  let st := server (Samples.after_upload Samples.empty_scene) in
  let r := {| analysis_id := "job-1"; status := initiated;
              video_source := Some "uploaded"; filename := Some "clip.mp4";
              video_url := None; created_at := 0;
              completed_at := None; error_message := None;
              job_scores := None; job_feedback := None;
              job_metrics_summary := None;
              job_output_files := None; job_video_info := None |} in
  let run :=
    process_video_analysis Samples.no_faults "job-1"
      "backend/output/uploaded_job-1.mp4" true st in
  run.1 = Ok ()
  ∧ (∃ r', analysis_results run.2 !! "job-1" = Some r'
           ∧ (status r' = completed ∨ status r' = failed)
           ∧ completed_at r' = Some (utcnow st)
           ∧ analysis_id r' = analysis_id r
           ∧ created_at r' = created_at r
           ∧ video_source r' = video_source r
           ∧ filename r' = filename r
           ∧ video_url r' = video_url r)
  ∧ (∀ id', id' ≠ "job-1" →
       analysis_results run.2 !! id' = analysis_results st !! id').
Proof.
  cbv zeta.
  apply (process_video_analysis_terminal Samples.no_faults "job-1"
           "backend/output/uploaded_job-1.mp4" true
           (server (Samples.after_upload Samples.empty_scene))).
  apply lookup_insert_eq.
Defined.

(** On a job id that the store does not hold, the runner raises KeyError
    (the handler fails on the same lookup) and changes nothing; the video is
    not analysed. *)
Theorem process_video_analysis_unknown_job (fl : Faults) (id path : string)
    (up : bool) (st : ServerState) :
  analysis_results st !! id = None →
  process_video_analysis fl id path up st = (Raise (KeyError id), st).
Proof.
  intros Hnone. unfold process_video_analysis, begin_processing, handle_failure,
    py_getitem.
  by rewrite Hnone.
Qed.

Lemma process_video_analysis_unknown_job_witness :
  process_video_analysis Samples.no_faults "job-9" "clip.mp4" false
    (server (Server.start_up (Samples.world_with ∅ Samples.empty_scene)))
  = (Raise (KeyError "job-9"),
     server (Server.start_up (Samples.world_with ∅ Samples.empty_scene))).
Proof. apply process_video_analysis_unknown_job. apply lookup_empty. Defined.

(** The database gets one document per completed run and none per failed
    run: after a run, the collection holds one more document, with the
    record as the store shows it, exactly when the job ends completed. *)
Theorem process_video_analysis_documents (fl : Faults) (id path : string)
    (up : bool) (st : ServerState) (r : JobRecord) :
  analysis_results st !! id = Some r →
  let run := process_video_analysis fl id path up st in
  ∃ r', analysis_results run.2 !! id = Some r'
        ∧ ((status r' = completed
            ∧ cricket_analyses run.2
              = (cricket_analyses st ++
                 [{| doc_analysis_id := id;
                     doc_video_source := if up then "uploaded" else "url";
                     doc_result := r';
                     doc_created_at := created_at r |}])%list)
           ∨ (status r' = failed
              ∧ cricket_analyses run.2 = cricket_analyses st)).
Proof.
  intros Hr. cbv zeta.
  pose proof (process_video_analysis_cases fl id path up st r Hr) as Hc.
  cbv zeta in Hc.
  set (st1 := set_world _ _) in Hc.
  assert (analysis_results st1 !! id = Some (set_status processing r)) as Hr1.
  { unfold st1. simpl. apply lookup_insert_eq. }
  destruct (analyze_video_file OUTPUT_DIR path (world st)).1 as [res | e].
  - set (st2 := set_analysis_results _ st1) in Hc.
    assert (analysis_results st2 !! id
            = Some (update_completed (utcnow st) res (set_status processing r)))
      as Hr2.
    { unfold st2. simpl. apply lookup_insert_eq. }
    destruct (insert_error fl) as [e |]; rewrite Hc.
    + destruct (handle_failure_found fl id path up e st2 _ Hr2) as (_ & Hrec & _).
      eexists. split; [exact Hrec |]. right. split; [done |].
      by rewrite handle_failure_documents.
    + eexists. split; [exact Hr2 |]. left. done.
  - rewrite Hc.
    destruct (handle_failure_found fl id path up e st1 _ Hr1) as (_ & Hrec & _).
    eexists. split; [exact Hrec |]. right. split; [done |].
    by rewrite handle_failure_documents.
Qed.

Lemma process_video_analysis_documents_witness :
  let st := server (Samples.after_upload Samples.empty_scene) in
  let run :=
    process_video_analysis Samples.no_faults "job-1"
      "backend/output/uploaded_job-1.mp4" true st in
  ∃ r', analysis_results run.2 !! "job-1" = Some r'
        ∧ ((status r' = completed
            ∧ cricket_analyses run.2
              = (cricket_analyses st ++
                 [{| doc_analysis_id := "job-1";
                     doc_video_source := "uploaded";
                     doc_result := r';
                     doc_created_at := 0 |}])%list)
           ∨ (status r' = failed
              ∧ cricket_analyses run.2 = cricket_analyses st)).
Proof.
  cbv zeta.
  apply (process_video_analysis_documents Samples.no_faults "job-1"
           "backend/output/uploaded_job-1.mp4" true
           (server (Samples.after_upload Samples.empty_scene)) _
           (lookup_insert_eq _ _ _)).
Defined.

(** One frame on which the pose estimator (or the colour conversion)
    raises fails the whole job: the frame is not skipped. *)
Theorem raising_frame_fails_job (fl : Faults) (id path : string) (up : bool)
    (st : ServerState) (r : JobRecord) (e : exn) :
  analysis_results st !! id = Some r →
  path ∈ files (world st) →
  is_opened (videos (world st) path) = true →
  Raise e ∈ frames (videos (world st) path) →
  let run := process_video_analysis fl id path up st in
  ∃ r' m, analysis_results run.2 !! id = Some r'
          ∧ status r' = failed
          ∧ error_message r' = Some ("Video analysis failed: " ++ m)
          ∧ job_scores r' = job_scores r.
Proof.
  intros Hr Hin Hopen Hframe. cbv zeta.
  destruct (frame_loop_raising_frame _ (frame_width (videos (world st) path)) [] 0 _
              Hframe) as [e' Hloop].
  pose proof (analyze_video_file_extraction_error OUTPUT_DIR path (world st) e'
                Hin Hopen Hloop) as Ha.
  rewrite (process_video_analysis_raised fl id path up st r _ Hr
             (f_equal fst Ha)).
  set (st1 := set_world _ _).
  assert (analysis_results st1 !! id = Some (set_status processing r)) as Hr1.
  { unfold st1. simpl. apply lookup_insert_eq. }
  destruct (handle_failure_found fl id path up
              (Exception ("Video analysis failed: " ++ exn_str e')) st1 _ Hr1)
    as (_ & Hrec & _).
  eexists _, (exn_str e'). split; [exact Hrec |]. done.
Qed.

Lemma raising_frame_fails_job_witness :
  let v := {| is_opened := true; frame_count := 1; fps := 10%R;
              frame_width := 640; frame_height := 480;
              frames := [Raise (Exception "pose estimation failed")] |} in
  let st := server (Samples.after_upload v) in
  let run :=
    process_video_analysis Samples.no_faults "job-1"
      "backend/output/uploaded_job-1.mp4" true st in
  ∃ r' m, analysis_results run.2 !! "job-1" = Some r'
          ∧ status r' = failed
          ∧ error_message r' = Some ("Video analysis failed: " ++ m)
          ∧ job_scores r' = None.
Proof.
  cbv zeta.
  refine (raising_frame_fails_job Samples.no_faults "job-1"
            "backend/output/uploaded_job-1.mp4" true _ _
            (Exception "pose estimation failed") (lookup_insert_eq _ _ _) _ _ _).
  - simpl. apply elem_of_union_l, elem_of_singleton. reflexivity.
  - reflexivity.
  - simpl. apply list_elem_of_here.
Defined.

Lemma failed_insert_marks_job_failed_witness :
  let fl := {| insert_error := Some (Exception "database unreachable");
               remove_error := None |} in
  let st := server (Samples.after_upload Samples.empty_scene) in
  let run :=
    process_video_analysis fl "job-1" "backend/output/uploaded_job-1.mp4" true st in
  ∃ res,
    (analyze_video_file OUTPUT_DIR "backend/output/uploaded_job-1.mp4" (world st)).1
    = Ok res
    ∧ run.1 = Ok ()
    ∧ ∃ r', analysis_results run.2 !! "job-1" = Some r'
            ∧ status r' = failed
            ∧ error_message r' = Some "database unreachable"
            ∧ completed_at r' = Some (utcnow st)
            ∧ job_scores r' = Some (scores (evaluation res)).
Proof.
  cbv zeta.
  destruct (analyze_video_file_no_pose OUTPUT_DIR "backend/output/uploaded_job-1.mp4"
              (world (server (Samples.after_upload Samples.empty_scene))))
    as (res & Hres & _).
  - simpl. apply elem_of_union_l, elem_of_singleton. reflexivity.
  - reflexivity.
  - simpl. repeat constructor; by eexists.
  - reflexivity.
  - reflexivity.
  - exists res. split; [exact Hres |].
    apply (failed_insert_marks_job_failed
             {| insert_error := Some (Exception "database unreachable");
                remove_error := None |}
             "job-1" "backend/output/uploaded_job-1.mp4" true
             (server (Samples.after_upload Samples.empty_scene)) _ res
             (Exception "database unreachable") (lookup_insert_eq _ _ _) Hres).
    reflexivity.
Defined.

(** A job started from a URL is analysed with the URL as its file path:
    unless a file of that very name exists, it ends failed with "Video file
    not found"; nothing is downloaded. *)
Theorem url_job_fails_file_not_found (fl : Faults) (id url : string) (s : System) :
  url ≠ "" →
  url ∉ files (world (server s)) →
  let request := Endpoints.analyze_video_request id (Some url) s in
  let run := process_video_analysis fl id url false (server request.2) in
  request.1 = Endpoints.Respond (id, "initiated")
  ∧ run.1 = Ok ()
  ∧ ∃ r, analysis_results run.2 !! id = Some r
         ∧ status r = failed
         ∧ video_url r = Some url
         ∧ error_message r
           = Some ("Video analysis failed: " ++ "Video file not found: " ++ url)
         ∧ files (world run.2) = files (world (server s)).
Proof.
  intros Hurl Hmiss. cbv zeta.
  assert (Endpoints.analyze_video_request id (Some url) s
          = (Endpoints.Respond (id, "initiated"), start_video_analysis id url s))
    as ->.
  { unfold Endpoints.analyze_video_request. by destruct url. }
  split; [done |]. cbn [snd].
  set (st := server (start_video_analysis id url s)).
  assert (files (world st) = files (world (server s))) as Hfiles by done.
  assert (url ∉ files (world st)) as Hmiss' by (by rewrite Hfiles).
  pose proof (analyze_video_file_missing OUTPUT_DIR url (world st) Hmiss') as Ha.
  assert (∃ r0, analysis_results st !! id = Some r0 ∧ video_url r0 = Some url)
    as (r0 & Hr0 & Hu0).
  { eexists. split; [apply lookup_insert_eq | done]. }
  rewrite (process_video_analysis_raised fl id url false st r0 _ Hr0 (f_equal fst Ha)).
  rewrite Ha. cbn [snd].
  set (st1 := set_world _ _).
  assert (analysis_results st1 !! id = Some (set_status processing r0)) as Hr1.
  { unfold st1. simpl. apply lookup_insert_eq. }
  destruct (handle_failure_found fl id url false
              (Exception ("Video analysis failed: " ++ "Video file not found: " ++ url))
              st1 _ Hr1) as (Hok & Hrec & _ & _ & Hkeep).
  split; [done |]. eexists. split; [exact Hrec |].
  split_and!; try done. by rewrite Hkeep.
Qed.

Lemma url_job_fails_file_not_found_witness :
  let s := Server.start_up (Samples.world_with ∅ Samples.empty_scene) in
  let url := "http://example.org/clip" in
  let request := Endpoints.analyze_video_request "job-2" (Some url) s in
  let run := process_video_analysis Samples.no_faults "job-2" url false
               (server request.2) in
  request.1 = Endpoints.Respond ("job-2", "initiated")
  ∧ run.1 = Ok ()
  ∧ ∃ r, analysis_results run.2 !! "job-2" = Some r
         ∧ status r = failed
         ∧ video_url r = Some url
         ∧ error_message r
           = Some ("Video analysis failed: " ++ "Video file not found: " ++ url)
         ∧ files (world run.2) = files (world (server s)).
Proof.
  cbv zeta.
  apply (url_job_fails_file_not_found Samples.no_faults "job-2"
           "http://example.org/clip"
           (Server.start_up (Samples.world_with ∅ Samples.empty_scene))).
  - discriminate.
  - simpl. apply not_elem_of_empty.
Defined.

End RunnerEffects.

(** * Further properties of the server as a transition system *)

Section SystemFacts.
Import Num Analyzer Spec Server.

Lemma insert_keeps_record (m : gmap string JobRecord) id id' (r : JobRecord) :
  is_Some (m !! id') → is_Some (<[id := r]> m !! id').
Proof. intros Hsome. rewrite lookup_insert_is_Some. destruct (decide (id = id')); auto. Qed.

Lemma handle_failure_keeps_record fl id path up (e : exn) (st : ServerState) id' :
  is_Some (analysis_results st !! id') →
  is_Some (analysis_results (handle_failure fl id path up e st).2 !! id').
Proof.
  intros Hsome. unfold handle_failure, py_getitem.
  destruct (analysis_results st !! id) as [r |]; simpl; [| done].
  destruct (up && bool_decide _); simpl; [| by apply insert_keeps_record].
  destruct (remove_error fl); simpl; by apply insert_keeps_record.
Qed.

Lemma resume_keeps_record (d : Delivery) (t : Task) (st : ServerState) id' :
  is_Some (analysis_results st !! id') →
  is_Some (analysis_results (resume d t st).2 !! id').
Proof.
  intros Hsome. unfold resume, begin_processing, store_result, insert_analysis,
    py_getitem.
  destruct (stage t); simpl.
  - destruct (analysis_results st !! task_analysis_id t) as [r |] eqn:Hr; simpl.
    + by apply insert_keeps_record.
    + by apply handle_failure_keeps_record.
  - destruct (analysis_outcome d) as [res | e]; simpl.
    + destruct (analysis_results st !! task_analysis_id t) as [r |] eqn:Hr; simpl.
      * by apply insert_keeps_record.
      * by apply handle_failure_keeps_record.
    + by apply handle_failure_keeps_record.
  - destruct (analysis_results st !! task_analysis_id t) as [r |] eqn:Hr; simpl.
    + destruct (insert_error (faults d)); simpl; [| done].
      by apply handle_failure_keeps_record.
    + by apply handle_failure_keeps_record.
  - done.
Qed.

Lemma step_keeps_record (s s' : System) id' :
  step s s' →
  is_Some (analysis_results (server s) !! id') →
  is_Some (analysis_results (server s') !! id').
Proof.
  intros Hstep Hsome.
  destruct Hstep as [id fname path s | id url s Hurl | i d s | now s Hnow]; simpl.
  - by apply insert_keeps_record.
  - by apply insert_keeps_record.
  - unfold run_task. destruct (tasks s !! i) as [t |]; [| done].
    pose proof (resume_keeps_record d t (server s) id' Hsome) as Hr.
    by destruct (resume d t (server s)).
  - done.
Qed.

Lemma step_tasks_have_records (s s' : System) :
  step s s' → tasks_have_records s → tasks_have_records s'.
Proof.
  intros Hstep Hinv t Ht.
  pose proof (step_keeps_record s s') as Hkeep.
  destruct Hstep as [id fname path s | id url s Hurl | i d s | now s Hnow].
  - simpl in Ht. apply elem_of_app in Ht as [Ht | Ht].
    + apply Hkeep; [constructor | by apply Hinv].
    + apply list_elem_of_singleton in Ht as ->. simpl.
      rewrite lookup_insert_eq. by eexists.
  - simpl in Ht. apply elem_of_app in Ht as [Ht | Ht].
    + apply Hkeep; [by constructor | by apply Hinv].
    + apply list_elem_of_singleton in Ht as ->. simpl.
      rewrite lookup_insert_eq. by eexists.
  - assert (∃ t0, t0 ∈ tasks s ∧ task_analysis_id t0 = task_analysis_id t)
      as (t0 & Ht0 & <-).
    { unfold run_task in Ht. destruct (tasks s !! i) as [ti |] eqn:Hi; [| by eexists].
      destruct (resume d ti (server s)) as [sg st]. simpl in Ht.
      apply list_elem_of_lookup in Ht as [j Hj].
      apply list_lookup_insert_Some in Hj as [(_ & <- & _) | [_ Hj]].
      - exists ti. split; [| done]. apply list_elem_of_lookup. by exists i.
      - exists t. split; [| done]. apply list_elem_of_lookup. by exists j. }
    apply Hkeep; [constructor | by apply Hinv].
  - simpl in *. by apply Hinv.
Qed.

(** In every state the server can reach, each scheduled or running task
    finds its job in the store, so that the runner's KeyError cannot occur;
    and a job, once in the store, stays there through all later steps. *)
Theorem reachable_tasks_have_records (s : System) :
  reachable s →
  (∀ t, t ∈ tasks s →
     is_Some (get_analysis_result (task_analysis_id t) (server s)))
  ∧ (∀ s' id, rtc step s s' →
       is_Some (get_analysis_result id (server s)) →
       is_Some (get_analysis_result id (server s'))).
Proof.
  intros [w Hreach]. split.
  - change (tasks_have_records s). revert s Hreach. apply rtc_ind_r.
    + intros t Ht. by apply elem_of_nil in Ht.
    + intros s s' _ Hstep IH. by eapply step_tasks_have_records.
  - intros s' id Hsteps. unfold get_analysis_result.
    induction Hsteps as [| s1 s2 s3 Hstep _ IH]; [done |].
    intros Hsome. apply IH; [| by eapply step_keeps_record].
    exact (rtc_r _ _ _ Hreach Hstep).
Qed.

Lemma reachable_tasks_have_records_witness :
  (∀ t, t ∈ tasks Samples.after_analysis →
     is_Some (get_analysis_result (task_analysis_id t)
                (server Samples.after_analysis)))
  ∧ (∀ s' id, rtc step Samples.after_analysis s' →
       is_Some (get_analysis_result id (server Samples.after_analysis)) →
       is_Some (get_analysis_result id (server s'))).
Proof.
  apply reachable_tasks_have_records.
  exists (Samples.world_with ∅ Samples.empty_scene).
  unfold Samples.after_analysis, Samples.after_upload.
  eapply rtc_l; [apply step_upload |].
  eapply rtc_l; [apply step_task |].
  eapply rtc_l; [apply step_task |].
  apply rtc_refl.
Defined.

End SystemFacts.

Section EndpointFacts.
Import Analyzer Server Endpoints.


End EndpointFacts.
